(** * A blog post store and its client-side cache

    Shallow embedding of [app.js] (the Express/SQLite REST backend) and of
    [public/js/model.js] (the [BlogModel] class holding the client cache and
    notifying its observers), followed by the properties of the two
    components.

    Conventions of the embedding.
    - A JavaScript string is the list of its UTF-16 code units.
    - A JavaScript number is [NaN], an infinity, or a finite rational.
    - The [posts] table is the list of its rows in rowid order together with
      the [sqlite_sequence] counter that [AUTOINCREMENT] maintains.
    - [datetime('now')] is a reading of the wall clock, passed to every
      request as an integer number of seconds.
    - Requests are served one at a time; likewise one [BlogModel] operation
      runs from its first statement to its [finally] block before the next
      one starts.
    - A call of the storage may fail: each request comes with the error, if
      any, of its write ([db.run]) and of its read ([db.all], [db.get]).
      [SQLITE_FULL] on an exhausted rowid space is computed from the table.
    - A string bound to a [TEXT] parameter is stored as UTF-8, in which an
      unpaired surrogate becomes U+FFFD.
    - [this.lastID] is the rowid as a double, rounded from 2^53 on; the rows
      of a response keep their ids as integers.
    - The table has the schema of the [CREATE TABLE] statement in
      [initializeDatabase], all five columns [NOT NULL]; on such a table the
      two [COALESCE] updates that follow it change nothing. *)

From Stdlib Require Import ZArith NArith QArith Qcanon Bool Lia String Ascii.
From stdpp Require Import base tactics option list sorting numbers pretty.

#[local] Open Scope Z_scope.

(** ** JavaScript values *)

Module JS.

(** A string is a sequence of 16-bit code units; [length] counts them. *)
Definition code_unit := N.
Definition jsstring := list code_unit.

(** String literals of the source, all ASCII. *)
Fixpoint lit (s : string) : jsstring :=
  match s with
  | EmptyString => []
  | String a r => N_of_ascii a :: lit r
  end.

(** ECMAScript [WhiteSpace] and [LineTerminator] code points, the ones
    [String.prototype.trim] strips: TAB, LF, VT, FF, CR, SP, NBSP,
    U+1680, U+2000..U+200A, U+2028, U+2029, U+202F, U+205F, U+3000,
    U+FEFF. *)
Definition is_white_space (c : code_unit) : bool :=
  ((9 <=? c) && (c <=? 13) || (c =? 32) || (c =? 160) || (c =? 5760)
   || (8192 <=? c) && (c <=? 8202) || (c =? 8232) || (c =? 8233)
   || (c =? 8239) || (c =? 8287) || (c =? 12288) || (c =? 65279))%N.

Fixpoint trimStart (s : jsstring) : jsstring :=
  match s with
  | [] => []
  | c :: r => if is_white_space c then trimStart r else s
  end.

Fixpoint trimEnd (s : jsstring) : jsstring :=
  match s with
  | [] => []
  | c :: r =>
      match trimEnd r with
      | [] => if is_white_space c then [] else [c]
      | r' => c :: r'
      end
  end.

(** [s.trim()] *)
Definition trim (s : jsstring) : jsstring := trimEnd (trimStart s).

(** [a.join(sep)] on an array of strings. *)
Fixpoint join (sep : jsstring) (a : list jsstring) : jsstring :=
  match a with
  | [] => []
  | [x] => x
  | x :: r => x ++ sep ++ join sep r
  end.

(** The values a property of a JSON request body (or of the object handed
    to the model) can hold, as far as the code distinguishes them: absent,
    [null], a string, or anything else (number, boolean, array, object),
    of which only the truthiness is ever looked at. *)
Inductive value :=
| Undefined
| Null
| Str (s : jsstring)
| Other (truthy : bool).

(** A JavaScript number.  Finite doubles are rationals. *)
Inductive number :=
| NaN
| Infinity (negative : bool)
| Finite (q : Q).

(** [Number.isFinite(n)] *)
Definition isFinite (n : number) : bool :=
  match n with
  | Finite _ => true
  | _ => false
  end.

(** [n === z] for an integer [z]; also SQLite's [id = ?] between an
    INTEGER column and a bound number. *)
Definition equals_int (n : number) (z : Z) : bool :=
  match n with
  | Finite q => Qeq_bool q (inject_Z z)
  | _ => false
  end.

(** A number holding the integer [z]. *)
Definition of_int (z : Z) : number := Finite (inject_Z z).

(** What a piece of JavaScript does: return or throw. *)
Inductive completion (A : Type) :=
| Return (a : A)
| Throw (message : jsstring).
Arguments Return {A} a.
Arguments Throw {A} message.

(** The message of the [TypeError] raised by calling [x.trim] where [x]
    has no such method (V8's wording). *)
Definition not_a_function (what : string) : jsstring :=
  lit (what ++ " is not a function").

(** The two halves of a surrogate pair: U+D800..U+DBFF leads,
    U+DC00..U+DFFF trails. *)
Definition is_lead (c : code_unit) : bool :=
  ((55296 <=? c) && (c <=? 56319))%N.

Definition is_trail (c : code_unit) : bool :=
  ((56320 <=? c) && (c <=? 57343))%N.

(** [s.toWellFormed()]: every surrogate that is not part of a pair
    becomes U+FFFD.  This is also what encoding a string as UTF-8 and
    decoding it again gives. *)
Fixpoint toWellFormed (s : jsstring) : jsstring :=
  match s with
  | [] => []
  | c :: r =>
      if is_lead c then
        match r with
        | d :: r' =>
            if is_trail d then c :: d :: toWellFormed r'
            else 65533%N :: toWellFormed r
        | [] => [65533%N]
        end
      else if is_trail c then 65533%N :: toWellFormed r
      else c :: toWellFormed r
  end.

(** [s.isWellFormed()] *)
Fixpoint isWellFormed (s : jsstring) : bool :=
  match s with
  | [] => true
  | c :: r =>
      if is_lead c then
        match r with
        | d :: r' => is_trail d && isWellFormed r'
        | [] => false
        end
      else negb (is_trail c) && isWellFormed r
  end.

(** The double nearest to an integer, ties to the even significand: what
    a 64-bit integer becomes when handed to JavaScript as a number.  Up to
    2^53 in absolute value it is the integer itself. *)
Definition double_of_int (z : Z) : Z :=
  let a := Z.abs z in
  let drop := Z.log2 a - 52 in
  if drop <=? 0 then z
  else
    let q := Z.shiftr a drop in
    let r := a - Z.shiftl q drop in
    let half := Z.shiftl 1 (drop - 1) in
    let q' := if (half <? r) || ((half =? r) && Z.odd q) then q + 1 else q in
    Z.sgn z * Z.shiftl q' drop.

(** The number a 64-bit integer is handed over as. *)
Definition of_int64 (z : Z) : number := of_int (double_of_int z).

End JS.

(** ** The post object

    A row of the [posts] table, and the JSON object that travels to the
    client: [{id, title, content, created_at, updated_at}]. *)

Record post := Post {
  id : Z;
  title : JS.jsstring;
  content : JS.jsstring;
  created_at : Z;
  updated_at : Z
}.

(** The [{title, content}] object of a create or update. *)
Record postData := PostData {
  data_title : JS.value;
  data_content : JS.value
}.

(** ** The post store: [app.js] *)

Module Server.
Import JS.

(** The database: the rows of [posts] and the [sqlite_sequence] entry
    that [INTEGER PRIMARY KEY AUTOINCREMENT] keeps for the table (the
    largest rowid ever handed out). *)
Record database := Database {
  posts : list post;
  sqlite_sequence : Z
}.

(** A fresh database file, after [CREATE TABLE IF NOT EXISTS posts]. *)
Definition empty : database := Database [] 0.

(** The largest rowid SQLite can store. *)
Definition MAX_ROWID : Z := 2 ^ 63 - 1.

Definition max_rowid (t : list post) : Z :=
  foldr (fun r m => Z.max (id r) m) 0 t.

Definition SQLITE_FULL : jsstring :=
  lit "SQLITE_FULL: database or disk is full".

(** [WHERE id = ?] *)
Definition where_id (n : number) (r : post) : bool := equals_int n (id r).

(** [ORDER BY id DESC]: [a] may come before [b]. *)
Definition id_desc (a b : post) : Prop := id b <= id a.

#[global] Instance id_desc_dec a b : Decision (id_desc a b) :=
  Z_le_dec (id b) (id a).

(** [SELECT * FROM posts ORDER BY id DESC] *)
Definition select_all (db : database) : list post :=
  merge_sort id_desc (posts db).

(** [SELECT * FROM posts WHERE id = ?] through [db.get]: the first
    matching row, or [undefined]. *)
Definition select_by_id (n : number) (db : database) : option post :=
  List.find (where_id n) (posts db).

(** A JavaScript string bound to a [TEXT] parameter, as the column gives
    it back: the string went through UTF-8. *)
Definition TEXT (s : jsstring) : jsstring := toWellFormed s.

(** [INSERT INTO posts (title, content) VALUES (?, ?)] with [t] and [c]
    bound: the rowid is one more than the largest that ever existed, both
    timestamps default to [datetime('now')]; the result is the new
    database and the rowid, or the error when the rowid space is used
    up. *)
Definition insert (now : Z) (t c : jsstring) (db : database)
  : jsstring + database * Z :=
  let largest := Z.max (sqlite_sequence db) (max_rowid (posts db)) in
  if MAX_ROWID <=? largest then inl SQLITE_FULL
  else
    let n := largest + 1 in
    inr (Database (posts db ++ [Post n (TEXT t) (TEXT c) now now]) n, n).

(** [UPDATE posts SET title = ?, content = ?, updated_at = datetime('now')
    WHERE id = ?] with [t], [c] and [n] bound: the new database and
    [this.changes]. *)
Definition update (now : Z) (t c : jsstring) (n : number) (db : database)
  : database * nat :=
  (Database
     (map (fun r => if where_id n r
                    then Post (id r) (TEXT t) (TEXT c) (created_at r) now
                    else r) (posts db))
     (sqlite_sequence db),
   length (List.filter (where_id n) (posts db))).

(** [DELETE FROM posts WHERE id = ?]: the new database and
    [this.changes]. *)
Definition delete (n : number) (db : database) : database * nat :=
  (Database (List.filter (fun r => negb (where_id n r)) (posts db))
            (sqlite_sequence db),
   length (List.filter (where_id n) (posts db))).

(** What a route sends back. *)
Inductive body :=
| Error (error : jsstring)          (* [{ error: ... }] *)
| Row (row : option post)           (* [res.json(row)] *)
| Rows (rows : list post)           (* [res.json(rows)] *)
| Success                           (* [{ success: true }] *)
| ErrorPage (message : jsstring).   (* Express's default error handler *)

Record response := Response { status : nat; sent : body }.

(** [v?.trim()]: [undefined] on a missing or null value, the trimmed
    string on a string, a [TypeError] on anything else. *)
Definition optional_trim (what : string) (v : value)
  : completion (option jsstring) :=
  match v with
  | Undefined | Null => Return None
  | Str s => Return (Some (trim s))
  | Other _ => Throw (not_a_function (what ++ "?.trim"))
  end.

(** [v.trim()] *)
Definition call_trim (what : string) (v : value) : completion jsstring :=
  match v with
  | Undefined =>
      Throw (lit "Cannot read properties of undefined (reading 'trim')")
  | Null => Throw (lit "Cannot read properties of null (reading 'trim')")
  | Str s => Return (trim s)
  | Other _ => Throw (not_a_function (what ++ ".trim"))
  end.

(** [!x] for [x] the result of [v?.trim()]. *)
Definition falsy (x : option jsstring) : bool :=
  match x with
  | None | Some [] => true
  | Some (_ :: _) => false
  end.

(** [!title?.trim() || !content?.trim()], left to right, the right
    operand only when the left one is false. *)
Definition required_missing (d : postData) : completion bool :=
  match optional_trim "title" (data_title d) with
  | Throw m => Throw m
  | Return t =>
      if falsy t then Return true
      else match optional_trim "content" (data_content d) with
           | Throw m => Throw m
           | Return c => Return (falsy c)
           end
  end.

(** An exception escaping a route reaches Express's default error
    handler, which answers 500. *)
Definition uncaught (db : database) (m : jsstring) : database * response :=
  (db, Response 500 (ErrorPage m)).

(** What the storage does to the calls of one request: the error, if any,
    of the write ([db.run]) and of the read ([db.all], [db.get]).  A
    statement that fails changes nothing. *)
Record storage := Storage {
  write_error : option jsstring;
  read_error : option jsstring
}.

(** A storage that fails no call. *)
Definition healthy : storage := Storage None None.

(** [db.all(`SELECT * FROM posts ORDER BY id DESC`, [], ...)] *)
Definition db_all (io : storage) (db : database) : jsstring + list post :=
  match read_error io with
  | Some err => inl err
  | None => inr (select_all db)
  end.

(** [db.get(`SELECT * FROM posts WHERE id = ?`, [n], ...)] *)
Definition db_get (io : storage) (n : number) (db : database)
  : jsstring + option post :=
  match read_error io with
  | Some err => inl err
  | None => inr (select_by_id n db)
  end.

(** [db.run(`INSERT ...`, [t, c], ...)]: the new database and
    [this.lastID]. *)
Definition db_run_insert (now : Z) (io : storage) (t c : jsstring)
    (db : database) : jsstring + database * number :=
  match write_error io with
  | Some err => inl err
  | None =>
      match insert now t c db with
      | inl err => inl err
      | inr (db', rowid) => inr (db', of_int64 rowid)
      end
  end.

(** [db.run(`UPDATE ...`, [t, c, n], ...)]: the new database and
    [this.changes]. *)
Definition db_run_update (now : Z) (io : storage) (t c : jsstring)
    (n : number) (db : database) : jsstring + database * nat :=
  match write_error io with
  | Some err => inl err
  | None => inr (update now t c n db)
  end.

(** [db.run(`DELETE ...`, [n], ...)]: the new database and
    [this.changes]. *)
Definition db_run_delete (io : storage) (n : number) (db : database)
  : jsstring + database * nat :=
  match write_error io with
  | Some err => inl err
  | None => inr (delete n db)
  end.

(** The [TypeError] of [const { title, content } = req.body] when no body
    was parsed and [req.body] is [undefined] (V8's wording). *)
Definition cannot_destructure : jsstring :=
  lit "Cannot destructure property 'title' of 'req.body' as it is undefined.".

(** [app.get('/api/posts')] *)
Definition app_get_posts (io : storage) (db : database)
  : database * response :=
  match db_all io db with
  | inl err => (db, Response 500 (Error err))
  | inr rows => (db, Response 200 (Rows rows))
  end.

(** [app.get('/api/posts/:id')]; [n] is [Number(req.params.id)]. *)
Definition app_get_post (io : storage) (n : number) (db : database)
  : database * response :=
  if negb (isFinite n) then (db, Response 400 (Error (lit "Invalid id")))
  else match db_get io n db with
       | inl err => (db, Response 500 (Error err))
       | inr None => (db, Response 404 (Error (lit "Not found")))
       | inr (Some row) => (db, Response 200 (Row (Some row)))
       end.

(** [app.post('/api/posts')]; [body] is [req.body], absent when no JSON
    body was parsed. *)
Definition app_post (now : Z) (io : storage) (body : option postData)
    (db : database) : database * response :=
  match body with
  | None => uncaught db cannot_destructure
  | Some d =>
      match required_missing d with
      | Throw m => uncaught db m
      | Return true =>
          (db, Response 400 (Error (lit "Title and content required")))
      | Return false =>
          match call_trim "title" (data_title d),
                call_trim "content" (data_content d) with
          | Throw m, _ | _, Throw m => uncaught db m
          | Return t, Return c =>
              match db_run_insert now io t c db with
              | inl err => (db, Response 500 (Error err))
              | inr (db', lastID) =>
                  match db_get io lastID db' with
                  | inl e2 => (db', Response 500 (Error e2))
                  | inr row => (db', Response 201 (Row row))
                  end
              end
          end
      end
  end.

(** [app.put('/api/posts/:id')]; [n] is [Number(req.params.id)], [body]
    is [req.body]. *)
Definition app_put (now : Z) (io : storage) (n : number)
    (body : option postData) (db : database) : database * response :=
  match body with
  | None => uncaught db cannot_destructure
  | Some d =>
      if negb (isFinite n) then (db, Response 400 (Error (lit "Invalid id")))
      else
        match required_missing d with
        | Throw m => uncaught db m
        | Return true =>
            (db, Response 400 (Error (lit "Title and content required")))
        | Return false =>
            match call_trim "title" (data_title d),
                  call_trim "content" (data_content d) with
            | Throw m, _ | _, Throw m => uncaught db m
            | Return t, Return c =>
                match db_run_update now io t c n db with
                | inl err => (db, Response 500 (Error err))
                | inr (db', changes) =>
                    if (changes =? 0)%nat
                    then (db', Response 404 (Error (lit "Not found")))
                    else
                      match db_get io n db' with
                      | inl e2 => (db', Response 500 (Error e2))
                      | inr row => (db', Response 200 (Row row))
                      end
                end
            end
        end
  end.

(** [app.delete('/api/posts/:id')]; [n] is [Number(req.params.id)]. *)
Definition app_delete (io : storage) (n : number) (db : database)
  : database * response :=
  if negb (isFinite n) then (db, Response 400 (Error (lit "Invalid id")))
  else
    match db_run_delete io n db with
    | inl err => (db, Response 500 (Error err))
    | inr (db', changes) =>
        if (changes =? 0)%nat
        then (db', Response 404 (Error (lit "Not found")))
        else (db', Response 200 Success)
    end.

(** The routes on a request whose body was parsed, served by a storage
    that fails no call. *)
Definition get_posts (db : database) : database * response :=
  app_get_posts healthy db.

Definition get_post (n : number) (db : database) : database * response :=
  app_get_post healthy n db.

Definition post_posts (now : Z) (d : postData) (db : database)
  : database * response :=
  app_post now healthy (Some d) db.

Definition put_post (now : Z) (n : number) (d : postData) (db : database)
  : database * response :=
  app_put now healthy n (Some d) db.

Definition delete_post (n : number) (db : database) : database * response :=
  app_delete healthy n db.

(** The five routes as one request type, and a server run: each request
    comes with the clock reading at which it is served and with what the
    storage does to its calls. *)
Inductive request :=
| GET_posts
| GET_post (n : number)
| POST_posts (body : option postData)
| PUT_post (n : number) (body : option postData)
| DELETE_post (n : number).

Definition handle (now : Z) (io : storage) (rq : request) (db : database)
  : database * response :=
  match rq with
  | GET_posts => app_get_posts io db
  | GET_post n => app_get_post io n db
  | POST_posts body => app_post now io body db
  | PUT_post n body => app_put now io n body db
  | DELETE_post n => app_delete io n db
  end.

Fixpoint run (reqs : list (Z * storage * request)) (db : database)
  : database * list response :=
  match reqs with
  | [] => (db, [])
  | (now, io, rq) :: rest =>
      let '(db1, r) := handle now io rq db in
      let '(db2, rs) := run rest db1 in
      (db2, r :: rs)
  end.

End Server.

(** ** The client cache and notifier: [BlogModel] in [public/js/model.js] *)

Module Client.
Import JS.

(** The fields of a [BlogModel] that its operations read and write.  The
    observer registry is represented by its effect: every call of
    [notifyObservers] is recorded, in order, in the trace of the
    operation, with the value its argument has at that moment
    ([createPost] and [updatePost] change the [posts] array in place,
    [loadPosts] and [deletePost] replace it). *)
Record model := Model {
  posts : list post;
  isLoading : bool
}.

(** [new BlogModel()] *)
Definition constructor : model := Model [] false.

(** [notifyObservers(event, data)]: the slot name with its argument. *)
Inductive event :=
| onLoadingStart
| onLoadingEnd
| onLoadingChange (loading : bool)
| onPostsLoaded (loaded : list post)
| onPostCreated (newPost : post)
| onPostUpdated (updatedPost : post)
| onPostDeleted (deleted : number)
| onError (message : jsstring).

(** A method body: from the model before to the model after, the events
    notified on the way, and the value returned or the error thrown. *)
Definition M (A : Type) : Type := model -> model * list event * completion A.

#[global] Instance M_ret : MRet M := fun A a m => (m, [], Return a).

#[global] Instance M_bind : MBind M := fun A B k c m =>
  let '(m1, e1, r1) := c m in
  match r1 with
  | Throw x => (m1, e1, Throw x)
  | Return a => let '(m2, e2, r2) := k a m1 in (m2, e1 ++ e2, r2)
  end.

(** [throw new Error(message)] *)
Definition throw {A} (message : jsstring) : M A :=
  fun m => (m, [], Throw message).

(** Lift a computation that touches no field. *)
Definition lift {A} (c : completion A) : M A :=
  fun m => (m, [], c).

Definition notifyObservers (e : event) : M unit :=
  fun m => (m, [e], Return tt).

Definition get_posts : M (list post) :=
  fun m => (m, [], Return (posts m)).

Definition set_posts (ps : list post) : M unit :=
  fun m => (Model ps (isLoading m), [], Return tt).

(** [try { body } catch (error) { handler(error.message) } finally { fin }] *)
Definition try_catch_finally {A} (body : M A) (handler : jsstring -> M A)
    (fin : M unit) : M A :=
  fun m =>
    let '(m1, e1, r1) := body m in
    let '(m2, e2, r2) :=
      match r1 with
      | Return a => (m1, [], Return a)
      | Throw x => handler x m1
      end in
    let '(m3, e3, r3) := fin m2 in
    (m3, e1 ++ e2 ++ e3,
     match r3 with
     | Throw x => Throw x
     | Return _ => r2
     end).

(** What [await fetch(...)] and the reading of the response give: the
    promise rejects, or resolves to a response with its [status], with
    [errBody?.error] (absent when the body is no JSON or has no truthy
    [error]) and with the outcome of [await response.json()] at the type
    the wire contract gives the body. *)
Record response (A : Type) := Response {
  status : nat;
  error : option jsstring;
  json : completion A
}.
Arguments Response {A} status error json.
Arguments status {A} r.
Arguments error {A} r.
Arguments json {A} r.

Inductive fetched (A : Type) :=
| Rejects (message : jsstring)
| Resolves (r : response A).
Arguments Rejects {A} message.
Arguments Resolves {A} r.

(** [response.ok] *)
Definition ok {A} (r : response A) : bool :=
  (200 <=? status r)%nat && (status r <=? 299)%nat.

(** [`Failed to ${what} (HTTP ${response.status})`] *)
Definition failed_to (what : string) (st : nat) : jsstring :=
  lit ("Failed to " ++ what ++ " (HTTP " ++ pretty st ++ ")").

(** The message of a mutation's failed response: the body's [error] when
    it has one, else the generic text. *)
Definition error_message {A} (what : string) (r : response A) : jsstring :=
  match error r with
  | Some (c :: e) => c :: e
  | _ => failed_to what (status r)
  end.

(** [setLoading(loading)] *)
Definition setLoading (loading : bool) : M unit :=
  fun m => (Model (posts m) loading, [onLoadingChange loading], Return tt).

(** The check on one field of [validatePostData]: the error to push, if
    any; a truthy value without [trim] throws. *)
Definition validate_field (what : string) (required short : jsstring)
    (least : nat) (v : value) : completion (list jsstring) :=
  match v with
  | Undefined | Null | Other false | Str [] => Return [required]
  | Other true => Throw (not_a_function ("postData." ++ what ++ ".trim"))
  | Str s =>
      if (length (trim s) =? 0)%nat then Return [required]
      else if (length (trim s) <? least)%nat then Return [short]
      else Return []
  end.

(** [validatePostData(postData)] *)
Definition validatePostData (d : postData) : completion (list jsstring) :=
  match validate_field "title" (lit "Title is required")
          (lit "Title must be at least 3 characters long") 3
          (data_title d) with
  | Throw x => Throw x
  | Return e1 =>
      match validate_field "content" (lit "Content is required")
              (lit "Content must be at least 10 characters long") 10
              (data_content d) with
      | Throw x => Throw x
      | Return e2 => Return (e1 ++ e2)
      end
  end.

(** The common [catch] block: notify [onError], rethrow. *)
Definition on_error {A} (message : jsstring) : M A :=
  notifyObservers (onError message);; throw message.

(** The validation step of [createPost] and [updatePost]. *)
Definition check (d : postData) : M unit :=
  validationErrors ← lift (validatePostData d);
  if (0 <? length validationErrors)%nat
  then throw (join (lit ". ") validationErrors)
  else mret tt.

(** [loadPosts()], given what the GET gives. *)
Definition loadPosts (f : fetched (list post)) : M (list post) :=
  setLoading true;;
  notifyObservers onLoadingStart;;
  try_catch_finally
    (match f with
     | Rejects x => throw x
     | Resolves r =>
         if negb (ok r) then throw (failed_to "load posts" (status r))
         else
           ps ← lift (json r);
           set_posts ps;;
           loaded ← get_posts;
           notifyObservers (onPostsLoaded loaded);;
           get_posts
     end)
    on_error
    (setLoading false;; notifyObservers onLoadingEnd).

(** [createPost(postData)], given what the POST gives. *)
Definition createPost (d : postData) (f : fetched post) : M post :=
  setLoading true;;
  try_catch_finally
    (check d;;
     match f with
     | Rejects x => throw x
     | Resolves r =>
         if negb (ok r) then throw (error_message "create post" r)
         else
           newPost ← lift (json r);
           ps ← get_posts;
           set_posts (newPost :: ps);;
           notifyObservers (onPostCreated newPost);;
           mret newPost
     end)
    on_error
    (setLoading false).

(** [this.posts.findIndex(f)], with [None] for [-1]. *)
Fixpoint findIndex (f : post -> bool) (ps : list post) : option nat :=
  match ps with
  | [] => None
  | p :: r => if f p then Some 0%nat else S <$> findIndex f r
  end.

(** [Number(p.id) === id] *)
Definition has_id (n : number) (p : post) : bool := equals_int n (id p).

(** [updatePost(postId, postData)], given what the PUT gives; [n] is
    [Number(postId)]. *)
Definition updatePost (n : number) (d : postData) (f : fetched post)
  : M post :=
  setLoading true;;
  try_catch_finally
    (if negb (isFinite n) then throw (lit "Invalid post id")
     else
       check d;;
       match f with
       | Rejects x => throw x
       | Resolves r =>
           if negb (ok r) then throw (error_message "update post" r)
           else
             updatedPost ← lift (json r);
             ps ← get_posts;
             match findIndex (has_id n) ps with
             | Some idx => set_posts (<[idx := updatedPost]> ps)
             | None => mret tt
             end;;
             notifyObservers (onPostUpdated updatedPost);;
             mret updatedPost
       end)
    on_error
    (setLoading false).

(** [deletePost(postId)], given what the DELETE gives; [n] is
    [Number(postId)]. *)
Definition deletePost (n : number) (f : fetched unit) : M bool :=
  setLoading true;;
  try_catch_finally
    (if negb (isFinite n) then throw (lit "Invalid post id")
     else
       match f with
       | Rejects x => throw x
       | Resolves r =>
           if negb (ok r) && negb (status r =? 204)%nat
           then throw (error_message "delete post" r)
           else
             ps ← get_posts;
             set_posts (List.filter (fun p => negb (has_id n p)) ps);;
             notifyObservers (onPostDeleted n);;
             mret true
       end)
    on_error
    (setLoading false).

(** [getPostById(postId)]; [n] is [Number(postId)]. *)
Definition getPostById (n : number) (m : model) : option post :=
  List.find (has_id n) (posts m).

End Client.

(** ** Vocabulary of the properties *)

(** A field that is missing or, once trimmed, empty. *)
Definition blank (v : JS.value) : Prop :=
  v = JS.Undefined \/ v = JS.Null \/ exists s, v = JS.Str s /\ JS.trim s = [].

(** A payload the store accepts: both fields strings that do not trim to
    the empty string. *)
Definition valid (d : postData) (t c : JS.jsstring) : Prop :=
  d = PostData (JS.Str t) (JS.Str c) /\ JS.trim t <> [] /\ JS.trim c <> [].

(** The rowid space of the table is not used up: an [INSERT] finds a
    rowid.  (That the create's re-read finds the new row takes more, see
    [rowid_exact].) *)
Definition rowid_available (db : Server.database) : Prop :=
  Z.max (Server.sqlite_sequence db) (Server.max_rowid (Server.posts db))
  < Server.MAX_ROWID.

(** What SQLite guarantees of the table: [id] is a key, and
    [sqlite_sequence] is at least every rowid in use. *)
Definition consistent (db : Server.database) : Prop :=
  NoDup (map id (Server.posts db))
  /\ Forall (fun p => id p <= Server.sqlite_sequence db) (Server.posts db).


(** The posts a response shows. *)
Definition shown (r : Server.response) : list post :=
  match Server.sent r with
  | Server.Row (Some p) => [p]
  | Server.Rows ps => ps
  | _ => []
  end.

(** The clock readings of a run never go back, starting from [t0]. *)
Fixpoint monotone (t0 : Z)
    (reqs : list (Z * Server.storage * Server.request)) : Prop :=
  match reqs with
  | [] => True
  | (t, _, _) :: rest => t0 <= t /\ monotone t rest
  end.

(** Every row was created no later than it was last updated, and that no
    later than [t]. *)
Definition timestamps_by (t : Z) (db : Server.database) : Prop :=
  Forall (fun p => created_at p <= updated_at p <= t) (Server.posts db).


(** The rowids in use, and the next one, are below 2^53: [this.lastID]
    is the rowid itself, and the create's re-read selects the row just
    inserted. *)
Definition rowid_exact (db : Server.database) : Prop :=
  Z.max (Server.sqlite_sequence db) (Server.max_rowid (Server.posts db))
  < 2 ^ 53.

(** The events of an operation, and its completion. *)
Definition events {A} (x : Client.model * list Client.event * JS.completion A)
  : list Client.event := x.1.2.

Definition cached {A} (x : Client.model * list Client.event * JS.completion A)
  : list post := Client.posts x.1.1.

Definition loading {A} (x : Client.model * list Client.event * JS.completion A)
  : bool := Client.isLoading x.1.1.

(** ** The rendering collaborator: [BlogView]

    Of the view, the parts that compute on strings: what the two submit
    handlers read from the form, check and notify, and the escaping of text
    put into the page.  Writes to the document are left out. *)

Module View.
Import JS.

(** [{ field, message }] *)
Record form_error := FormError {
  field : string;
  message : jsstring
}.

(** What the view notifies its observers of. *)
Inductive event :=
| onViewInitialized
| onPostCreate (d : postData)
| onPostUpdate (n : number) (d : postData)
| onPostDelete (postId : number)
| onPostEdit (postId : number).

(** [String(formData.get(name) || '').trim()] for a text control, whose
    entry is a string, or [null] when the form has no such control. *)
Definition form_field (entry : option jsstring) : jsstring :=
  trim (default [] entry).

(** [!s || s.length < least] on a string. *)
Definition too_short (least : nat) (s : jsstring) : bool :=
  match s with
  | [] => true
  | _ => (length s <? least)%nat
  end.

(** [validateForm(postData)], on the object the submit handlers build,
    whose two properties are strings. *)
Definition validateForm (t c : jsstring) : list form_error :=
  (if too_short 3 t
   then [FormError "title" (lit "Title must be at least 3 characters long")]
   else [])
  ++ (if too_short 10 c
      then [FormError "content"
              (lit "Content must be at least 10 characters long")]
      else []).

(** What a submit handler ends in: the errors it displays, or the event it
    notifies. *)
Inductive outcome :=
| Displayed (errors : list form_error)
| Notified (e : event).

(** The truthiness of [this.currentEditId], [null] or a number. *)
Definition editing (currentEditId : option number) : option number :=
  match currentEditId with
  | Some (Finite q) => if Qeq_bool q 0 then None else currentEditId
  | Some (Infinity _) => currentEditId
  | Some NaN | None => None
  end.

(** [handleSubmit(e)], given the entries of the form. *)
Definition handleSubmit (currentEditId : option number)
    (title content : option jsstring) : outcome :=
  let t := form_field title in
  let c := form_field content in
  let errors := validateForm t c in
  if (0 <? length errors)%nat then Displayed errors
  else match editing currentEditId with
       | Some n => Notified (onPostUpdate n (PostData (Str t) (Str c)))
       | None => Notified (onPostCreate (PostData (Str t) (Str c)))
       end.

(** [handleEditSubmit(e)], given the entries of the edit form; [n] is
    [Number(formData.get('id'))]. *)
Definition handleEditSubmit (n : number) (title content : option jsstring)
  : outcome :=
  let t := form_field title in
  let c := form_field content in
  let errors := validateForm t c in
  if (0 <? length errors)%nat then Displayed errors
  else Notified (onPostUpdate n (PostData (Str t) (Str c))).

(** [handleDelete(postId)], given the answer to [confirm(...)]. *)
Definition handleDelete (confirmed : bool) (postId : number) : option event :=
  if confirmed then Some (onPostDelete postId) else None.

(** How the serialisation of a text node writes one code unit: the
    ampersand, the two angle brackets and the no-break space as entities. *)
Definition escape_unit (c : code_unit) : jsstring :=
  if (c =? 38)%N then lit "&amp;"
  else if (c =? 60)%N then lit "&lt;"
  else if (c =? 62)%N then lit "&gt;"
  else if (c =? 160)%N then lit "&nbsp;"
  else [c].

(** [escapeHtml(text)] on a string: the [innerHTML] of an element whose
    [textContent] is the string. *)
Definition escapeHtml (text : jsstring) : jsstring :=
  flat_map escape_unit text.

(** [s.replaceAll('\n', '<br>')] *)
Definition replace_newlines (s : jsstring) : jsstring :=
  flat_map (fun c => if (c =? 10)%N then lit "<br>" else [c]) s.

(** [renderPostContent(content)] on a string. *)
Definition renderPostContent (content : jsstring) : jsstring :=
  replace_newlines (escapeHtml content).

End View.

(** ** The mediator: [BlogController]

    The one handler that runs without awaiting anything. *)

Module Controller.
Import JS.

(** The call the handler makes on the view. *)
Inductive view_call :=
| showError (message : jsstring)
| showEditForm (p : post).

(** [handlePostEdit(postId)]: [postId] is absent when [null] or
    [undefined], else given as [Number(postId)], which is all
    [getPostById] looks at. *)
Definition handlePostEdit (postId : option number) (m : Client.model)
  : view_call :=
  match postId with
  | None => showError (lit "Missing post id for edit")
  | Some n =>
      match Client.getPostById n m with
      | None => showError (lit "Post not found.")
      | Some p => showEditForm p
      end
  end.

End Controller.

(** ** The observer registry of [BlogModel] and [BlogView] *)

Module Observers.

(** An observer object: its identity, and the names of its properties that
    hold functions. *)
Record observer := Observer {
  ref : nat;
  slots : list string
}.

(** [addObserver(observer)] *)
Definition addObserver (o : observer) (observers : list observer)
  : list observer :=
  observers ++ [o].

(** [removeObserver(observer)]: [obs !== observer] compares identities. *)
Definition removeObserver (o : observer) (observers : list observer)
  : list observer :=
  List.filter (fun obs => negb (ref obs =? ref o)%nat) observers.

(** [typeof observer[event] === 'function'] *)
Definition implements (event : string) (o : observer) : bool :=
  bool_decide (event ∈ slots o).

(** [notifyObservers(event, data)]: the observers whose slot is called, in
    the order of the calls. *)
Definition notifyObservers (event : string) (observers : list observer)
  : list nat :=
  map ref (List.filter (implements event) observers).

End Observers.

(** ** Further vocabulary *)

(** A post whose title and content are non-empty and trimmed. *)
Definition presentable (p : post) : Prop :=
  title p <> [] /\ content p <> []
  /\ JS.trim (title p) = title p /\ JS.trim (content p) = content p.

(** A post whose title and content are well-formed UTF-16: no surrogate
    without its other half. *)
Definition well_formed (p : post) : Prop :=
  JS.isWellFormed (title p) = true /\ JS.isWellFormed (content p) = true.

(** The posts the creates of a run answered with 201. *)
Definition created (rs : list Server.response) : list post :=
  flat_map (fun r => if (Server.status r =? 201)%nat then shown r else []) rs.

(** A request that reads only. *)
Definition reads (rq : Server.request) : bool :=
  match rq with
  | Server.GET_posts | Server.GET_post _ => true
  | _ => false
  end.

(** The only markup in a string is [<br>]: every [<] opens one and every
    [>] closes one. *)
Fixpoint tags_are_br (s : JS.jsstring) : bool :=
  match s with
  | [] => true
  | c :: r =>
      if (c =? 60)%N then
        match r with
        | b :: (r' :: (g :: rest)) =>
            (b =? 98)%N && (r' =? 114)%N && (g =? 62)%N && tags_are_br rest
        | _ => false
        end
      else if (c =? 62)%N then false
      else tags_are_br r
  end.

(** ** The definitions at work *)

Example trim_both_ends :
  JS.trim (JS.lit "  Hello  world ") = JS.lit "Hello  world".
Proof. reflexivity. Qed.

Example trim_line_terminators :
  JS.trim [10; 8232; 97; 32; 98; 12288; 65279]%N = [97; 32; 98]%N.
Proof. reflexivity. Qed.

Example trim_blank : JS.trim (JS.lit "   ") = [].
Proof. reflexivity. Qed.

Example join_messages :
  JS.join (JS.lit ". ") [JS.lit "a"; JS.lit "b"; JS.lit "c"]
  = JS.lit "a. b. c".
Proof. reflexivity. Qed.

Example failed_to_status :
  Client.failed_to "create post" 503
  = JS.lit "Failed to create post (HTTP 503)".
Proof. reflexivity. Qed.

Example validatePostData_both_short :
  Client.validatePostData
    (PostData (JS.Str (JS.lit " ab ")) (JS.Str (JS.lit "too short")))
  = JS.Return [JS.lit "Title must be at least 3 characters long";
               JS.lit "Content must be at least 10 characters long"].
Proof. reflexivity. Qed.

Example validatePostData_number_title :
  Client.validatePostData (PostData (JS.Other true) JS.Undefined)
  = JS.Throw (JS.lit "postData.title.trim is not a function").
Proof. reflexivity. Qed.

Example post_number_title :
  Server.post_posts 5 (PostData (JS.Other true) (JS.Str [])) Server.empty
  = (Server.empty,
     Server.Response 500
       (Server.ErrorPage (JS.lit "title?.trim is not a function"))).
Proof. reflexivity. Qed.

Example rowids_are_not_reused :
  let d := PostData (JS.Str (JS.lit "t")) (JS.Str (JS.lit "c")) in
  map id (Server.posts
            (Server.run [(1, Server.healthy, Server.POST_posts (Some d));
                         (2, Server.healthy, Server.POST_posts (Some d));
                         (3, Server.healthy, Server.DELETE_post (JS.of_int 2));
                         (4, Server.healthy, Server.POST_posts (Some d))]
               Server.empty).1)
  = [1; 3].
Proof. reflexivity. Qed.

Example lone_surrogates_are_replaced :
  JS.toWellFormed [55296; 97; 55357; 56832; 56832; 98; 56319]%N
  = [65533; 97; 55357; 56832; 65533; 98; 65533]%N.
Proof. reflexivity. Qed.

Example doubles_round_to_even :
  map JS.double_of_int
    [2 ^ 53 - 1; 2 ^ 53; 2 ^ 53 + 1; 2 ^ 53 + 2; 2 ^ 53 + 3; 2 ^ 63 - 1;
     - (2 ^ 53 + 1)]
  = [2 ^ 53 - 1; 2 ^ 53; 2 ^ 53; 2 ^ 53 + 2; 2 ^ 53 + 4; 2 ^ 63;
     - 2 ^ 53].
Proof. reflexivity. Qed.

Example create_with_failing_reread :
  let d := PostData (JS.Str (JS.lit "t")) (JS.Str (JS.lit "c")) in
  Server.app_post 5 (Server.Storage None (Some (JS.lit "SQLITE_BUSY")))
    (Some d) Server.empty
  = (Server.Database [Post 1 (JS.lit "t") (JS.lit "c") 5 5] 1,
     Server.Response 500 (Server.Error (JS.lit "SQLITE_BUSY"))).
Proof. reflexivity. Qed.

Example create_past_the_exact_doubles :
  let d := PostData (JS.Str (JS.lit "t")) (JS.Str (JS.lit "c")) in
  Server.post_posts 5 d (Server.Database [] (2 ^ 53))
  = (Server.Database [Post (2 ^ 53 + 1) (JS.lit "t") (JS.lit "c") 5 5]
       (2 ^ 53 + 1),
     Server.Response 201 (Server.Row None)).
Proof. reflexivity. Qed.

Example insert_on_full_table :
  Server.post_posts 5 (PostData (JS.Str (JS.lit "t")) (JS.Str (JS.lit "c")))
    (Server.Database [] Server.MAX_ROWID)
  = (Server.Database [] Server.MAX_ROWID,
     Server.Response 500 (Server.Error Server.SQLITE_FULL)).
Proof. reflexivity. Qed.

Example load_failure :
  Client.loadPosts (Client.Resolves (Client.Response 500 None (JS.Return [])))
    (Client.Model [] false)
  = (Client.Model [] false,
     [Client.onLoadingChange true; Client.onLoadingStart;
      Client.onError (JS.lit "Failed to load posts (HTTP 500)");
      Client.onLoadingChange false; Client.onLoadingEnd],
     JS.Throw (JS.lit "Failed to load posts (HTTP 500)")).
Proof. reflexivity. Qed.

Example update_error_body :
  (Client.updatePost (JS.of_int 4)
     (PostData (JS.Str (JS.lit "title")) (JS.Str (JS.lit "0123456789")))
     (Client.Resolves
        (Client.Response 404 (Some (JS.lit "Not found"))
           (JS.Throw (JS.lit "unused"))))
     (Client.Model [] false)).2
  = JS.Throw (JS.lit "Not found").
Proof. reflexivity. Qed.

(** ** Strings *)

Section Trim.
Import JS.

Lemma trimStart_head c r :
  is_white_space c = false -> trimStart (c :: r) = c :: r.
Proof. intros H. simpl. by rewrite H. Qed.

Lemma trimStart_shape s :
  trimStart s = [] \/
  exists c r, trimStart s = c :: r /\ is_white_space c = false.
Proof.
  induction s as [|c r IH]; simpl; [by left|].
  destruct (is_white_space c) eqn:E; [done|].
  right. by exists c, r.
Qed.

Lemma trimStart_idem s : trimStart (trimStart s) = trimStart s.
Proof.
  destruct (trimStart_shape s) as [->|(c & r & -> & H)]; [done|].
  by apply trimStart_head.
Qed.

(** [trimEnd] keeps the first code unit when it is no white space. *)
Lemma trimEnd_head c r :
  is_white_space c = false -> exists r', trimEnd (c :: r) = c :: r'.
Proof.
  intros H. simpl. destruct (trimEnd r) as [|x r'].
  - rewrite H. by exists [].
  - by exists (x :: r').
Qed.

Lemma trimEnd_idem s : trimEnd (trimEnd s) = trimEnd s.
Proof.
  induction s as [|c r IH]; [done|]. simpl.
  destruct (trimEnd r) as [|x r'] eqn:E.
  - destruct (is_white_space c) eqn:W; [done|]. simpl. by rewrite W.
  - change (trimEnd (c :: x :: r')) with
      (match trimEnd (x :: r') with
       | [] => if is_white_space c then [] else [c]
       | y => c :: y
       end).
    by rewrite IH.
Qed.

Lemma trim_idem s : trim (trim s) = trim s.
Proof.
  unfold trim.
  destruct (trimStart_shape s) as [->|(c & r & -> & H)]; [done|].
  destruct (trimEnd_head c r H) as [r' E].
  rewrite E, (trimStart_head _ _ H), <- E. apply trimEnd_idem.
Qed.

(** A trimmed string does not start with white space. *)
Lemma trim_no_leading s c r :
  trim s = c :: r -> is_white_space c = false.
Proof.
  unfold trim.
  destruct (trimStart_shape s) as [->|(c' & r' & -> & H)]; [done|].
  destruct (trimEnd_head c' r' H) as [r'' ->]. congruence.
Qed.

End Trim.

(** ** The shape of a trimmed string, and text *)

Section TrimShape.
Import JS.

Lemma trimStart_split s :
  exists l, s = l ++ trimStart s /\ Forall (fun c => is_white_space c = true) l.
Proof.
  induction s as [|c s (l & E & H)]; [by exists []|]. cbn.
  destruct (is_white_space c) eqn:W.
  - exists (c :: l). cbn. rewrite <- E. split; [done|by constructor].
  - by exists [].
Qed.

Lemma trimEnd_split s :
  exists r, s = trimEnd s ++ r /\ Forall (fun c => is_white_space c = true) r.
Proof.
  induction s as [|c s (r & E & H)]; [by exists []|]. cbn.
  destruct (trimEnd s) as [|x t] eqn:T.
  - cbn in E. subst r. destruct (is_white_space c) eqn:W.
    + exists (c :: s). split; [done|by constructor].
    + by exists s.
  - exists r. cbn. by rewrite E at 1.
Qed.

Lemma trimEnd_last s : forall t c,
  trimEnd s = t ++ [c] -> is_white_space c = false.
Proof.
  induction s as [|a s IH]; intros t c; cbn; [by destruct t|].
  destruct (trimEnd s) as [|x u] eqn:T.
  - destruct (is_white_space a) eqn:W; [by destruct t|].
    destruct t as [|y [|z t]]; cbn; intros [= ]; by subst.
  - destruct t as [|y t]; cbn; [done|]. intros [= <- E]. by eapply IH.
Qed.

End TrimShape.

Section Text.
Import JS.

(** A string that neither starts nor ends with white space is its own
    trimmed form. *)
Lemma trim_fixed s c t c' :
  s = c :: t -> last s = Some c' ->
  is_white_space c = false -> is_white_space c' = false ->
  trim s = s.
Proof.
  intros -> Hl Hc Hc'. unfold trim. rewrite (trimStart_head c t Hc).
  destruct (trimEnd_split (c :: t)) as (r & E & Hr).
  destruct r as [|x r _] using rev_ind; [by rewrite app_nil_r in E|].
  rewrite E, app_assoc, last_snoc in Hl. injection Hl as <-.
  rewrite Forall_app, Forall_singleton in Hr. destruct Hr as [_ Hr].
  congruence.
Qed.

(** Induction that follows [toWellFormed], which looks at two code units
    at a time. *)
Lemma by_pairs (P : jsstring -> Prop) :
  P [] -> (forall c, P [c]) ->
  (forall c d r, P r -> P (d :: r) -> P (c :: d :: r)) ->
  forall s, P s.
Proof.
  intros H0 H1 H2 s.
  assert (P s /\ forall c, P (c :: s)) as [H _]; [|done].
  induction s as [|d r [IH1 IH2]]; [by split|].
  split; [apply IH2|]. intros c. apply H2; [done|apply IH2].
Qed.

Lemma surrogates_are_no_white_space c :
  is_lead c = true \/ is_trail c = true -> is_white_space c = false.
Proof.
  unfold is_lead, is_trail, is_white_space.
  rewrite !andb_true_iff, !N.leb_le. intros H.
  apply not_true_iff_false.
  rewrite !orb_true_iff, !andb_true_iff, !N.leb_le, !N.eqb_eq. lia.
Qed.

Lemma toWellFormed_pair c d r :
  toWellFormed (c :: d :: r) =
  if is_lead c then
    if is_trail d then c :: d :: toWellFormed r
    else 65533%N :: toWellFormed (d :: r)
  else if is_trail c then 65533%N :: toWellFormed (d :: r)
  else c :: toWellFormed (d :: r).
Proof. reflexivity. Qed.

Lemma isWellFormed_pair c d r :
  isWellFormed (c :: d :: r) =
  if is_lead c then is_trail d && isWellFormed r
  else negb (is_trail c) && isWellFormed (d :: r).
Proof. reflexivity. Qed.

(** Going through UTF-8 keeps the length of a string and which of its
    code units are white space. *)
Lemma toWellFormed_white_space s :
  map is_white_space (toWellFormed s) = map is_white_space s.
Proof.
  induction s as [|c|c d r IH1 IH2] using by_pairs; [done|..].
  - cbn. destruct (is_lead c) eqn:L; [|destruct (is_trail c) eqn:T]; cbn;
      [| |done]; by rewrite surrogates_are_no_white_space by auto.
  - rewrite toWellFormed_pair. destruct (is_lead c) eqn:L.
    + destruct (is_trail d) eqn:T.
      * change (map is_white_space (c :: d :: toWellFormed r))
          with (is_white_space c :: is_white_space d
                  :: map is_white_space (toWellFormed r)).
        by rewrite IH1.
      * change (map is_white_space (65533%N :: toWellFormed (d :: r)))
          with (false :: map is_white_space (toWellFormed (d :: r))).
        rewrite IH2.
        change (map is_white_space (c :: d :: r))
          with (is_white_space c :: map is_white_space (d :: r)).
        by rewrite (surrogates_are_no_white_space c) by auto.
    + destruct (is_trail c) eqn:T.
      * change (map is_white_space (65533%N :: toWellFormed (d :: r)))
          with (false :: map is_white_space (toWellFormed (d :: r))).
        rewrite IH2.
        change (map is_white_space (c :: d :: r))
          with (is_white_space c :: map is_white_space (d :: r)).
        by rewrite (surrogates_are_no_white_space c) by auto.
      * change (map is_white_space (c :: toWellFormed (d :: r)))
          with (is_white_space c :: map is_white_space (toWellFormed (d :: r))).
        by rewrite IH2.
Qed.

(** A well-formed string goes through UTF-8 unchanged. *)
Lemma toWellFormed_isWellFormed s :
  isWellFormed s = true -> toWellFormed s = s.
Proof.
  induction s as [|c|c d r IH1 IH2] using by_pairs; [done|..].
  - cbn. destruct (is_lead c); [done|]. by destruct (is_trail c).
  - rewrite toWellFormed_pair, isWellFormed_pair.
    destruct (is_lead c) eqn:L.
    + destruct (is_trail d); [|done]. intros H. by rewrite IH1.
    + destruct (is_trail c); [done|]. intros H. by rewrite IH2.
Qed.

(** A trimmed, non-empty string is still trimmed and non-empty once it
    went through UTF-8. *)
Lemma toWellFormed_trimmed s :
  trim s <> [] ->
  toWellFormed (trim s) <> []
  /\ trim (toWellFormed (trim s)) = toWellFormed (trim s).
Proof.
  intros Hne. pose proof (toWellFormed_white_space (trim s)) as Hw.
  destruct (trim s) as [|c t] eqn:E; [done|].
  destruct (toWellFormed (c :: t)) as [|c' t'] eqn:E'; [done|].
  split; [done|].
  assert (is_white_space c = false) as Hc by by eapply trim_no_leading.
  assert (exists x, last (c :: t) = Some x) as [x Hx].
  { destruct (last (c :: t)) eqn:El; [by eexists|].
    by apply last_None in El. }
  assert (is_white_space x = false) as Hx'.
  { destruct (c :: t) as [|y u _] using rev_ind; [done|].
    rewrite last_snoc in Hx. injection Hx as ->.
    rewrite <- E in *. unfold trim in E. by eapply trimEnd_last. }
  assert (exists x', last (c' :: t') = Some x'
                     /\ is_white_space x' = false) as (x' & Hl & Hx'').
  { pose proof (f_equal last Hw) as Hlast.
    rewrite !fmap_last, Hx in Hlast. cbn [fmap option_fmap option_map] in Hlast.
    destruct (last (c' :: t')) as [x'|]; [|done].
    exists x'. split; [done|]. cbn in Hlast. congruence. }
  apply (trim_fixed _ c' t' x'); [done|done| |done].
  cbn in Hw. congruence.
Qed.

End Text.

(** ** Numbers and identifiers *)

Section Numbers.
Import JS.

Lemma equals_int_of_int a b : equals_int (of_int a) b = true <-> a = b.
Proof.
  unfold equals_int, of_int.
  rewrite Qeq_bool_iff, inject_Z_injective. done.
Qed.

Lemma equals_int_refl a : equals_int (of_int a) a = true.
Proof. by apply equals_int_of_int. Qed.

(** A number equals at most one integer. *)
Lemma equals_int_inj n a b :
  equals_int n a = true -> equals_int n b = true -> a = b.
Proof.
  destruct n as [| |q]; simpl; try done.
  rewrite !Qeq_bool_iff. intros Ha Hb.
  apply inject_Z_injective. by rewrite <- Ha, <- Hb.
Qed.

Lemma equals_int_finite n a : equals_int n a = true -> isFinite n = true.
Proof. by destruct n. Qed.

(** Integers up to 2^53 in absolute value are doubles. *)
Lemma double_of_int_exact z : Z.abs z <= 2 ^ 53 -> double_of_int z = z.
Proof.
  intros H. destruct (decide (Z.abs z = 2 ^ 53)) as [E|E].
  - destruct (Z.abs_eq_or_opp z) as [E'|E']; rewrite E' in E.
    + by subst z.
    + assert (z = - 2 ^ 53) as -> by lia. done.
  - unfold double_of_int. cbn zeta.
    destruct (Z.leb_spec (Z.log2 (Z.abs z) - 52) 0) as [|Hl]; [done|].
    exfalso. destruct (decide (Z.abs z = 0)) as [E0|E0].
    + rewrite E0 in Hl. cbn in Hl. lia.
    + assert (Z.log2 (Z.abs z) < 53); [|lia].
      apply Z.log2_lt_pow2; lia.
Qed.

Lemma of_int64_exact z : Z.abs z <= 2 ^ 53 -> of_int64 z = of_int z.
Proof. intros H. unfold of_int64. by rewrite double_of_int_exact. Qed.

End Numbers.

(** ** The payload guard of create and update *)

Section Guard.
Import JS Server.

Lemma falsy_trim s : trim s <> [] -> falsy (Some (trim s)) = false.
Proof. by destruct (trim s). Qed.

Lemma valid_passes d t c :
  valid d t c ->
  required_missing d = Return false
  /\ call_trim "title" (data_title d) = Return (trim t)
  /\ call_trim "content" (data_content d) = Return (trim c).
Proof.
  intros (-> & Ht & Hc). unfold required_missing.
  cbn [data_title data_content optional_trim call_trim].
  by rewrite (falsy_trim t Ht), (falsy_trim c Hc).
Qed.

Lemma blank_falsy what v : blank v -> exists x,
  optional_trim what v = Return x /\ falsy x = true.
Proof.
  intros [->|[->|(s & -> & E)]]; simpl; eauto.
  exists (Some (trim s)). by rewrite E.
Qed.

(** A missing or empty title, or a string title with a missing or empty
    content, trips the guard. *)
Lemma blank_rejected d :
  blank (data_title d)
  \/ (exists s, data_title d = Str s) /\ blank (data_content d) ->
  required_missing d = Return true.
Proof.
  unfold required_missing. intros [Ht|[[s Hs] Hc]].
  - destruct (blank_falsy "title" _ Ht) as (x & -> & ->). done.
  - rewrite Hs. cbn [optional_trim].
    destruct (falsy (Some (trim s))); [done|].
    destruct (blank_falsy "content" _ Hc) as (x & -> & ->). done.
Qed.

(** The guard lets exactly the valid payloads through. *)
Lemma passes_valid d :
  required_missing d = Return false ->
  exists t c, valid d t c.
Proof.
  destruct d as [[| |t|bt] vc]; unfold required_missing; simpl; try done.
  destruct (trim t) as [|x t'] eqn:Et; simpl; [done|].
  destruct vc as [| |c|bc]; simpl; try done.
  destruct (trim c) as [|y c'] eqn:Ec; simpl; [done|].
  intros _. exists t, c. unfold valid. rewrite Et, Ec. done.
Qed.

End Guard.

(** ** The table *)

Section Table.
Import JS Server.

Lemma max_rowid_ge t p : p ∈ t -> id p <= max_rowid t.
Proof.
  induction 1 as [p t|p q t _ IH]; simpl; lia.
Qed.

Lemma find_app_none {A} (f : A -> bool) l1 l2 :
  List.find f l1 = None -> List.find f (l1 ++ l2) = List.find f l2.
Proof.
  induction l1 as [|a l1 IH]; simpl; [done|].
  destruct (f a); [done|]. apply IH.
Qed.

Lemma find_none_iff {A} (f : A -> bool) l :
  List.find f l = None <-> Forall (fun a => f a = false) l.
Proof.
  induction l as [|a l IH]; simpl.
  - split; [constructor|done].
  - rewrite Forall_cons, <- IH. destruct (f a); intuition congruence.
Qed.

Lemma filter_nil_iff {A} (f : A -> bool) l :
  List.filter f l = [] <-> Forall (fun a => f a = false) l.
Proof.
  induction l as [|a l IH]; simpl.
  - split; [constructor|done].
  - rewrite Forall_cons, <- IH. destruct (f a); intuition congruence.
Qed.

(** [this.changes] is zero exactly when the re-read finds nothing. *)
Lemma changes_zero n db :
  (length (List.filter (where_id n) (posts db)) =? 0)%nat = true
  <-> select_by_id n db = None.
Proof.
  unfold select_by_id.
  rewrite Nat.eqb_eq, length_zero_iff_nil, filter_nil_iff, find_none_iff.
  done.
Qed.

Lemma changes_nonzero n db p :
  select_by_id n db = Some p ->
  (length (List.filter (where_id n) (posts db)) =? 0)%nat = false.
Proof.
  intros H. apply not_true_iff_false. rewrite changes_zero. congruence.
Qed.

(** An [UPDATE] or [DELETE] that matches no row leaves the table as it
    is. *)
Lemma update_none now t c n db :
  select_by_id n db = None -> (update now t c n db).1 = db.
Proof.
  unfold select_by_id, update. rewrite find_none_iff. intros H.
  destruct db as [ps sq]. simpl in *. f_equal.
  induction H as [|p ps Hp _ IH]; simpl; [done|]. by rewrite Hp, IH.
Qed.

Lemma delete_none n db :
  select_by_id n db = None -> (delete n db).1 = db.
Proof.
  unfold select_by_id, delete. rewrite find_none_iff. intros H.
  destruct db as [ps sq]. simpl in *. f_equal.
  induction H as [|p ps Hp _ IH]; simpl; [done|]. by rewrite Hp, IH.
Qed.

(** The row an [INSERT] adds is the one its rowid selects. *)
Lemma insert_selects now t c db :
  rowid_available db ->
  exists n,
    n = Z.max (sqlite_sequence db) (max_rowid (posts db)) + 1
    /\ insert now t c db
       = inr (Database
                (posts db ++ [Post n (TEXT t) (TEXT c) now now]) n, n)
    /\ select_by_id (of_int n)
         (Database (posts db ++ [Post n (TEXT t) (TEXT c) now now]) n)
       = Some (Post n (TEXT t) (TEXT c) now now).
Proof.
  unfold rowid_available, insert. intros Hav.
  eexists. split; [reflexivity|].
  destruct (Z.leb_spec MAX_ROWID
              (Z.max (sqlite_sequence db) (max_rowid (posts db))));
    [lia|]. split; [done|].
  unfold select_by_id. simpl. rewrite find_app_none.
  - cbn [List.find]. unfold where_id. cbn [id].
    by rewrite equals_int_refl.
  - apply find_none_iff, Forall_forall. intros p Hp.
    apply not_true_iff_false. unfold where_id.
    rewrite equals_int_of_int. apply max_rowid_ge in Hp. lia.
Qed.

End Table.

(** ** The store's routes *)

Section Routes.
Import JS Server.

Lemma find_map_keep {A} (f : A -> bool) (g : A -> A) l :
  (forall a, f (g a) = f a) ->
  List.find f (map g l) = g <$> List.find f l.
Proof.
  intros H. induction l as [|a l IH]; simpl; [done|].
  rewrite H. by destruct (f a).
Qed.

(** The row a successful [UPDATE] leaves under the identifier. *)
Lemma update_selects now t c n db p :
  select_by_id n db = Some p ->
  select_by_id n (update now t c n db).1
  = Some (Post (id p) (TEXT t) (TEXT c) (created_at p) now).
Proof.
  unfold select_by_id, update. cbn [fst posts]. intros H.
  rewrite find_map_keep.
  - rewrite H. cbn. apply find_some in H as [_ H]. by rewrite H.
  - intros a. unfold where_id. by destruct (equals_int n (id a)) eqn:E.
Qed.

(** The routes past the payload guard. *)
Lemma app_post_valid now io d t c db :
  valid d t c ->
  app_post now io (Some d) db =
    match db_run_insert now io (trim t) (trim c) db with
    | inl err => (db, Response 500 (Error err))
    | inr (db', lastID) =>
        match db_get io lastID db' with
        | inl e2 => (db', Response 500 (Error e2))
        | inr row => (db', Response 201 (Row row))
        end
    end.
Proof.
  intros Hv. destruct (valid_passes _ _ _ Hv) as (E1 & E2 & E3).
  unfold app_post. by rewrite E1, E2, E3.
Qed.

Lemma app_put_valid now io n d t c db :
  isFinite n = true -> valid d t c ->
  app_put now io n (Some d) db =
    match db_run_update now io (trim t) (trim c) n db with
    | inl err => (db, Response 500 (Error err))
    | inr (db', changes) =>
        if (changes =? 0)%nat
        then (db', Response 404 (Error (lit "Not found")))
        else
          match db_get io n db' with
          | inl e2 => (db', Response 500 (Error e2))
          | inr row => (db', Response 200 (Row row))
          end
    end.
Proof.
  intros Hn Hv. destruct (valid_passes _ _ _ Hv) as (E1 & E2 & E3).
  unfold app_put. by rewrite Hn, E1, E2, E3.
Qed.


Lemma get_post_healthy n db :
  get_post n db =
    if negb (isFinite n) then (db, Response 400 (Error (lit "Invalid id")))
    else match select_by_id n db with
         | None => (db, Response 404 (Error (lit "Not found")))
         | Some row => (db, Response 200 (Row (Some row)))
         end.
Proof. done. Qed.

Lemma post_posts_healthy now d db :
  post_posts now d db =
    match required_missing d with
    | Throw m => uncaught db m
    | Return true =>
        (db, Response 400 (Error (lit "Title and content required")))
    | Return false =>
        match call_trim "title" (data_title d),
              call_trim "content" (data_content d) with
        | Throw m, _ | _, Throw m => uncaught db m
        | Return t, Return c =>
            match insert now t c db with
            | inl err => (db, Response 500 (Error err))
            | inr (db', rowid) =>
                (db', Response 201 (Row (select_by_id (of_int64 rowid) db')))
            end
        end
    end.
Proof.
  unfold post_posts, app_post, db_run_insert, db_get.
  cbn [healthy write_error read_error]. repeat case_match; by simplify_eq.
Qed.

Lemma put_post_healthy now n d db :
  put_post now n d db =
    if negb (isFinite n) then (db, Response 400 (Error (lit "Invalid id")))
    else
      match required_missing d with
      | Throw m => uncaught db m
      | Return true =>
          (db, Response 400 (Error (lit "Title and content required")))
      | Return false =>
          match call_trim "title" (data_title d),
                call_trim "content" (data_content d) with
          | Throw m, _ | _, Throw m => uncaught db m
          | Return t, Return c =>
              let '(db', changes) := update now t c n db in
              if (changes =? 0)%nat
              then (db', Response 404 (Error (lit "Not found")))
              else (db', Response 200 (Row (select_by_id n db')))
          end
      end.
Proof.
  unfold put_post, app_put, db_run_update, db_get.
  cbn [healthy write_error read_error]. repeat case_match; by simplify_eq.
Qed.

Lemma delete_post_healthy n db :
  delete_post n db =
    if negb (isFinite n) then (db, Response 400 (Error (lit "Invalid id")))
    else
      let '(db', changes) := delete n db in
      if (changes =? 0)%nat
      then (db', Response 404 (Error (lit "Not found")))
      else (db', Response 200 Success).
Proof.
  unfold delete_post, app_delete, db_run_delete.
  cbn [healthy write_error read_error]. repeat case_match; by simplify_eq.
Qed.

Lemma post_posts_valid now d t c db :
  valid d t c ->
  post_posts now d db =
    match insert now (trim t) (trim c) db with
    | inl err => (db, Response 500 (Error err))
    | inr (db', rowid) =>
        (db', Response 201 (Row (select_by_id (of_int64 rowid) db')))
    end.
Proof.
  intros Hv. destruct (valid_passes _ _ _ Hv) as (E1 & E2 & E3).
  rewrite post_posts_healthy. by rewrite E1, E2, E3.
Qed.

Lemma put_post_valid now n d t c db :
  isFinite n = true -> valid d t c ->
  put_post now n d db =
    let '(db', changes) := update now (trim t) (trim c) n db in
    if (changes =? 0)%nat
    then (db', Response 404 (Error (lit "Not found")))
    else (db', Response 200 (Row (select_by_id n db'))).
Proof.
  intros Hn Hv. destruct (valid_passes _ _ _ Hv) as (E1 & E2 & E3).
  rewrite put_post_healthy. by rewrite Hn, E1, E2, E3.
Qed.

Lemma put_post_not_found now n d t c db :
  isFinite n = true -> valid d t c -> select_by_id n db = None ->
  put_post now n d db = (db, Response 404 (Error (lit "Not found"))).
Proof.
  intros Hn Hv Hs. rewrite (put_post_valid now n d t c db Hn Hv).
  pose proof (update_none now (trim t) (trim c) n db Hs) as E.
  apply changes_zero in Hs.
  unfold update in *. cbn [fst] in E. by rewrite Hs, E.
Qed.

Lemma put_post_found now n d t c db p :
  valid d t c -> select_by_id n db = Some p ->
  put_post now n d db =
    ((update now (trim t) (trim c) n db).1,
     Response 200
       (Row (Some (Post (id p) (TEXT (trim t)) (TEXT (trim c))
                        (created_at p) now)))).
Proof.
  intros Hv Hs.
  assert (isFinite n = true) as Hn.
  { apply find_some in Hs as [_ Hs]. by eapply equals_int_finite. }
  rewrite (put_post_valid now n d t c db Hn Hv).
  pose proof (update_selects now (trim t) (trim c) n db p Hs) as E.
  apply changes_nonzero in Hs.
  unfold update in *. cbn [fst] in E. by rewrite Hs, E.
Qed.

Lemma delete_post_not_found n db :
  isFinite n = true -> select_by_id n db = None ->
  delete_post n db = (db, Response 404 (Error (lit "Not found"))).
Proof.
  intros Hn Hs. rewrite delete_post_healthy, Hn. cbn [negb].
  pose proof (delete_none n db Hs) as E. apply changes_zero in Hs.
  unfold delete in *. cbn [fst] in E. by rewrite Hs, E.
Qed.

Lemma delete_post_found n db p :
  select_by_id n db = Some p ->
  delete_post n db = ((delete n db).1, Response 200 Success).
Proof.
  intros Hs.
  assert (isFinite n = true) as Hn.
  { apply find_some in Hs as [_ Hs]. by eapply equals_int_finite. }
  rewrite delete_post_healthy, Hn. cbn [negb]. apply changes_nonzero in Hs.
  unfold delete. cbn [fst]. by rewrite Hs.
Qed.

End Routes.

(** ** The answers of the routes *)

Ltac as_it_was :=
  left; repeat case_match; cbn; (split; [done|split; [auto 6|done]]).

Section Answers.
Import JS Server.

Lemma max_rowid_nonneg t : 0 <= max_rowid t.
Proof.
  unfold max_rowid. induction t as [|p t IH]; cbn [foldr]; lia.
Qed.

Lemma rowid_exact_available db : rowid_exact db -> rowid_available db.
Proof.
  unfold rowid_exact, rowid_available, MAX_ROWID.
  assert (2 ^ 53 < 2 ^ 63 - 1) by reflexivity. lia.
Qed.

(** While rowids are exact, [this.lastID] is the rowid and the create
    answers the row it inserted. *)
Lemma post_posts_exact now d t c db :
  valid d t c -> rowid_exact db ->
  let n := Z.max (sqlite_sequence db) (max_rowid (posts db)) + 1 in
  let p := Post n (TEXT (trim t)) (TEXT (trim c)) now now in
  let db' := Database (posts db ++ [p]) n in
  insert now (trim t) (trim c) db = inr (db', n)
  /\ of_int64 n = of_int n
  /\ select_by_id (of_int n) db' = Some p
  /\ post_posts now d db = (db', Response 201 (Row (Some p))).
Proof.
  intros Hv Hex. cbn zeta.
  destruct (insert_selects now (trim t) (trim c) db
              (rowid_exact_available db Hex)) as (n & -> & Hi & Hs).
  assert (of_int64 (Z.max (sqlite_sequence db) (max_rowid (posts db)) + 1)
          = of_int (Z.max (sqlite_sequence db) (max_rowid (posts db)) + 1))
    as Hn.
  { apply of_int64_exact. unfold rowid_exact in Hex.
    pose proof (max_rowid_nonneg (posts db)). lia. }
  split; [done|]. split; [done|]. split; [done|].
  by rewrite (post_posts_valid now d t c db Hv), Hi, Hn, Hs.
Qed.

(** Every answer of the update route, read backwards: a 200 comes from a
    parsed, valid payload under an identifier that selected a row, with
    both storage calls succeeding, and carries the rewritten row; a 404
    comes with the table as it was. *)
Lemma app_put_answers now io n body db db' r :
  app_put now io n body db = (db', r) ->
  (status r = 200%nat ->
   exists d t c p,
     body = Some d /\ valid d t c /\ select_by_id n db = Some p
     /\ write_error io = None /\ read_error io = None
     /\ db' = (update now (trim t) (trim c) n db).1
     /\ r = Response 200
              (Row (Some (Post (id p) (TEXT (trim t)) (TEXT (trim c))
                               (created_at p) now))))
  /\ (status r = 404%nat -> db' = db /\ select_by_id n db = None).
Proof.
  destruct body as [d|]; [|by intros [= <- <-]].
  destruct (isFinite n) eqn:Hn;
    [|unfold app_put; rewrite Hn; by intros [= <- <-]].
  destruct (required_missing d) as [[|]|m] eqn:Hg;
    [unfold app_put; rewrite Hn, Hg; by intros [= <- <-]|
    |unfold app_put; rewrite Hn, Hg; by intros [= <- <-]].
  destruct (passes_valid d Hg) as (t & c & Hv).
  rewrite (app_put_valid now io n d t c db Hn Hv).
  unfold db_run_update, db_get.
  destruct (write_error io) as [e|] eqn:Hw; [by intros [= <- <-]|].
  destruct (select_by_id n db) as [p|] eqn:Hs.
  - pose proof (update_selects now (trim t) (trim c) n db p Hs) as E.
    pose proof (changes_nonzero n db p Hs) as Hc.
    unfold update in *. cbn [fst] in E. rewrite Hc.
    destruct (read_error io) as [e|] eqn:Hr; [by intros [= <- <-]|].
    rewrite E. intros [= <- <-]. split; [|done].
    intros _. by exists d, t, c, p.
  - pose proof (update_none now (trim t) (trim c) n db Hs) as E.
    pose proof (proj2 (changes_zero n db) Hs) as Hc.
    unfold update in *. cbn [fst] in E. rewrite Hc, E.
    by intros [= <- <-].
Qed.

(** How a request leaves the database: as it was, or after one statement
    whose arguments come from a valid payload.  The write of a create or
    an update comes before its re-read, so it stays when the re-read
    fails. *)
Lemma handle_writes now io rq db :
  ((handle now io rq db).1 = db
   /\ (reads rq = true
       \/ status (handle now io rq db).2 = 400%nat
       \/ status (handle now io rq db).2 = 404%nat
       \/ status (handle now io rq db).2 = 500%nat)
   /\ status (handle now io rq db).2 <> 201%nat)
  \/ (exists d t c n,
        rq = POST_posts (Some d) /\ valid d t c /\ write_error io = None
        /\ insert now (trim t) (trim c) db = inr ((handle now io rq db).1, n)
        /\ (handle now io rq db).2
           = match read_error io with
             | Some e2 => Response 500 (Error e2)
             | None =>
                 Response 201
                   (Row (select_by_id (of_int64 n) (handle now io rq db).1))
             end)
  \/ (exists k d t c p,
        rq = PUT_post k (Some d) /\ valid d t c
        /\ select_by_id k db = Some p /\ write_error io = None
        /\ (handle now io rq db).1 = (update now (trim t) (trim c) k db).1
        /\ (handle now io rq db).2
           = match read_error io with
             | Some e2 => Response 500 (Error e2)
             | None =>
                 Response 200
                   (Row (Some (Post (id p) (TEXT (trim t)) (TEXT (trim c))
                                    (created_at p) now)))
             end)
  \/ (exists k p,
        rq = DELETE_post k /\ select_by_id k db = Some p
        /\ write_error io = None
        /\ handle now io rq db = ((delete k db).1, Response 200 Success)).
Proof.
  destruct rq as [|k|[d|]|k [d|]|k]; cbn [handle].
  - unfold app_get_posts. as_it_was.
  - unfold app_get_post. as_it_was.
  - destruct (required_missing d) as [[]|] eqn:E;
      try (unfold app_post, uncaught; rewrite E; as_it_was).
    destruct (passes_valid d E) as (t & c & Hv).
    rewrite (app_post_valid now io d t c db Hv). unfold db_run_insert.
    destruct (write_error io) eqn:Hw; [as_it_was|].
    destruct (insert now (trim t) (trim c) db) as [|[db' n]] eqn:Hi;
      [as_it_was|].
    right. left. exists d, t, c, n. unfold db_get.
    by destruct (read_error io).
  - as_it_was.
  - destruct (isFinite k) eqn:Hk;
      [|unfold app_put; rewrite Hk; as_it_was].
    destruct (required_missing d) as [[]|] eqn:E;
      try (unfold app_put, uncaught; rewrite Hk, E; as_it_was).
    destruct (passes_valid d E) as (t & c & Hv).
    rewrite (app_put_valid now io k d t c db Hk Hv). unfold db_run_update.
    destruct (write_error io) eqn:Hw; [as_it_was|].
    destruct (select_by_id k db) as [p|] eqn:Hs.
    + right. right. left. exists k, d, t, c, p.
      pose proof (update_selects now (trim t) (trim c) k db p Hs) as Eu.
      pose proof (changes_nonzero k db p Hs) as Hc.
      unfold update in *. cbn [fst] in Eu. rewrite Hc. unfold db_get.
      destruct (read_error io); [done|]. by rewrite Eu.
    + pose proof (update_none now (trim t) (trim c) k db Hs) as Eu.
      pose proof (proj2 (changes_zero k db) Hs) as Hc.
      unfold update in *. cbn [fst] in Eu. rewrite Hc, Eu. as_it_was.
  - as_it_was.
  - destruct (isFinite k) eqn:Hk;
      [|unfold app_delete; rewrite Hk; as_it_was].
    unfold app_delete, db_run_delete. rewrite Hk. cbn [negb].
    destruct (write_error io) eqn:Hw; [as_it_was|].
    destruct (select_by_id k db) as [p|] eqn:Hs.
    + right. right. right. exists k, p.
      pose proof (changes_nonzero k db p Hs) as Hc.
      unfold delete in *. by rewrite Hc.
    + pose proof (delete_none k db Hs) as Ed.
      pose proof (proj2 (changes_zero k db) Hs) as Hc.
      unfold delete in *. cbn [fst] in Ed. rewrite Hc, Ed. as_it_was.
Qed.

End Answers.

(** ** What the statements preserve *)

Section Statements.
Import JS Server.

#[local] Instance id_desc_transitive : Transitive id_desc.
Proof. unfold id_desc. intros a b c. lia. Qed.

#[local] Instance id_desc_total : Total id_desc.
Proof. unfold id_desc. intros a b. lia. Qed.

(** Under the key constraint a row is determined by its id. *)
Lemma key_determines (l : list post) x y :
  NoDup (map id l) -> x ∈ l -> y ∈ l -> id x = id y -> x = y.
Proof.
  induction l as [|a l IH]; simpl; [by intros _ ?%elem_of_nil|].
  rewrite NoDup_cons. intros [Ha Hl] Hx Hy E.
  apply elem_of_cons in Hx as [->|Hx], Hy as [->|Hy]; auto.
  - destruct Ha. rewrite E. by apply list_elem_of_fmap_2.
  - destruct Ha. rewrite <- E. by apply list_elem_of_fmap_2.
Qed.

Lemma select_all_perm db : select_all db ≡ₚ posts db.
Proof. apply merge_sort_Permutation. Qed.




Lemma insert_shape now t c db db' n :
  insert now t c db = inr (db', n) ->
  n = Z.max (sqlite_sequence db) (max_rowid (posts db)) + 1
  /\ db' = Database (posts db ++ [Post n (TEXT t) (TEXT c) now now]) n.
Proof.
  unfold insert. case_match; [done|]. intros [= <- <-]. done.
Qed.

Lemma insert_consistent now t c db db' n :
  consistent db -> insert now t c db = inr (db', n) -> consistent db'.
Proof.
  intros [Hn Hle] (Hv & ->)%insert_shape. split; cbn [posts sqlite_sequence].
  - rewrite fmap_app. cbn. apply NoDup_app. split; [done|].
    split; [|apply NoDup_singleton].
    intros x (p & Hx & Hp)%list_elem_of_fmap Hx'%list_elem_of_singleton.
    apply max_rowid_ge in Hp. lia.
  - apply Forall_app. split.
    + eapply Forall_impl; [exact Hle|]. cbn. intros. lia.
    + apply Forall_singleton. cbn. lia.
Qed.

Lemma update_ids now t c n db :
  map id (posts (update now t c n db).1) = map id (posts db).
Proof.
  unfold update. cbn [fst posts]. rewrite <- list_fmap_compose.
  apply list_fmap_ext. intros i p _. cbn. by destruct (where_id n p).
Qed.

Lemma update_consistent now t c n db :
  consistent db -> consistent (update now t c n db).1.
Proof.
  intros [Hn Hle]. split.
  - by rewrite update_ids.
  - unfold update. cbn [fst posts sqlite_sequence].
    apply Forall_fmap. eapply Forall_impl; [exact Hle|].
    intros p Hp. cbn. by destruct (where_id n p).
Qed.

Lemma filter_elem_of (f : post -> bool) l p :
  p ∈ List.filter f l <-> p ∈ l /\ f p = true.
Proof. rewrite !list_elem_of_In. apply filter_In. Qed.

Lemma delete_consistent n db :
  consistent db -> consistent (delete n db).1.
Proof.
  intros [Hn Hle]. unfold delete. split; cbn [fst posts sqlite_sequence].
  - eapply sublist_NoDup; [exact Hn|].
    apply fmap_sublist. clear. induction (posts db) as [|p l IH]; cbn.
    + constructor.
    + destruct (negb (where_id n p)); by constructor.
  - apply Forall_forall. intros p [Hp _]%filter_elem_of.
    rewrite Forall_forall in Hle. auto.
Qed.

(** A route changes the database only through one of the three
    statements, whatever the storage does and whether or not a body was
    parsed. *)
Lemma handle_preserves (P : database -> Prop) now io rq db :
  P db ->
  (forall t c db' n, insert now t c db = inr (db', n) -> P db') ->
  (forall t c n, P (update now t c n db).1) ->
  (forall n, P (delete n db).1) ->
  P (handle now io rq db).1.
Proof.
  intros H0 Hi Hu Hd.
  destruct (handle_writes now io rq db)
    as [(-> & _)|[(d & t & c & n & _ & _ & _ & Hins & _)
                 |[(k & d & t & c & p & _ & _ & _ & _ & -> & _)
                  |(k & p & _ & _ & _ & ->)]]]; eauto.
Qed.

Lemma empty_consistent : consistent empty.
Proof. split; constructor. Qed.

Lemma handle_consistent now io rq db :
  consistent db -> consistent (handle now io rq db).1.
Proof.
  intros H. apply handle_preserves;
    eauto using insert_consistent, update_consistent, delete_consistent.
Qed.

(** The sequence counter never goes down. *)
Lemma handle_sequence_le now io rq db :
  sqlite_sequence db <= sqlite_sequence (handle now io rq db).1.
Proof.
  apply (handle_preserves
           (fun db' => sqlite_sequence db <= sqlite_sequence db')); [lia|..].
  - intros t c db' n (Hn & ->)%insert_shape. cbn. lia.
  - intros t c n. cbn. lia.
  - intros n. cbn. lia.
Qed.

(** Every post a response shows is a row of the table as the request
    left it. *)
Lemma handle_shown now io rq db p :
  p ∈ shown (handle now io rq db).2 -> p ∈ posts (handle now io rq db).1.
Proof.
  assert (forall n db' q, select_by_id n db' = Some q -> q ∈ posts db')
    as Hsel.
  { intros n db' q [H _]%find_some. by apply list_elem_of_In. }
  destruct (handle_writes now io rq db)
    as [(E & _)|[(d & t & c & n & _ & _ & _ & _ & ->)
                |[(k & d & t & c & q & _ & _ & Hs & _ & -> & ->)
                 |(k & q & _ & _ & _ & ->)]]].
  - destruct rq as [|n|body|n body|n]; cbn [handle] in *.
    + unfold app_get_posts, db_all.
      destruct (read_error io); cbn; [by intros ?%elem_of_nil|].
      by rewrite select_all_perm.
    + unfold app_get_post, db_get.
      destruct (negb (isFinite n)); [by intros ?%elem_of_nil|].
      destruct (read_error io); [by intros ?%elem_of_nil|].
      destruct (select_by_id n db) eqn:Hs; [|by intros ?%elem_of_nil].
      intros ->%list_elem_of_singleton. eauto.
    + revert E. unfold app_post, uncaught, db_run_insert, db_get.
      repeat case_match; simplify_eq; cbn; try by intros _ ?%elem_of_nil.
      unfold shown. cbn. intros _.
      case_match; [|by intros ?%elem_of_nil].
      intros ->%list_elem_of_singleton. eauto.
    + revert E. unfold app_put, uncaught, db_run_update, db_get.
      repeat case_match; simplify_eq; cbn; try by intros _ ?%elem_of_nil.
      unfold shown. cbn. intros _.
      case_match; [|by intros ?%elem_of_nil].
      intros ->%list_elem_of_singleton. eauto.
    + unfold app_delete, db_run_delete.
      repeat case_match; simplify_eq; cbn; by intros ?%elem_of_nil.
  - unfold shown. destruct (read_error io); cbn; [by intros ?%elem_of_nil|].
    case_match; [|by intros ?%elem_of_nil].
    intros ->%list_elem_of_singleton. eauto.
  - unfold shown. destruct (read_error io); cbn; [by intros ?%elem_of_nil|].
    intros ->%list_elem_of_singleton.
    exact (Hsel k (update now (trim t) (trim c) k db).1 _
             (update_selects now (trim t) (trim c) k db q Hs)).
  - by intros ?%elem_of_nil.
Qed.

End Statements.

(** ** Runs of the server *)

Section Runs.
Import JS Server.

Lemma run_cons now io rq rest db :
  run ((now, io, rq) :: rest) db
  = ((run rest (handle now io rq db).1).1,
     (handle now io rq db).2 :: (run rest (handle now io rq db).1).2).
Proof.
  cbn [run]. destruct (handle now io rq db) as [db1 r]. cbn [fst snd].
  by destruct (run rest db1).
Qed.


Lemma run_sequence_le reqs : forall db,
  sqlite_sequence db <= sqlite_sequence (run reqs db).1.
Proof.
  induction reqs as [|[[now io] rq] rest IH]; intros db; [done|].
  rewrite run_cons. cbn [fst].
  pose proof (handle_sequence_le now io rq db).
  pose proof (IH (handle now io rq db).1). lia.
Qed.

Lemma insert_reread now t c db db' n :
  insert now t c db = inr (db', n) ->
  select_by_id (of_int n) db' = Some (Post n (TEXT t) (TEXT c) now now).
Proof.
  intros Hi. assert (rowid_available db) as Hav.
  { unfold rowid_available. unfold insert in Hi.
    destruct (Z.leb_spec MAX_ROWID
                (Z.max (sqlite_sequence db) (max_rowid (posts db))));
      [done|lia]. }
  destruct (insert_selects now t c db Hav) as (m & _ & Hm & Hs).
  rewrite Hm in Hi. by simplify_eq.
Qed.

(** Up to 2^53 the rowid reaches JavaScript as it is. *)
Lemma insert_exact now t c db db' n :
  insert now t c db = inr (db', n) -> n <= 2 ^ 53 -> of_int64 n = of_int n.
Proof.
  intros (Hn & _)%insert_shape Hle. apply of_int64_exact.
  pose proof (max_rowid_nonneg (posts db)). lia.
Qed.

(** The shape of a request answered 201: a create with a parsed, valid
    payload whose insertion and re-read both succeeded; it answers what
    the re-read under [this.lastID] selects, which up to 2^53 is the row
    inserted. *)
Lemma handle_created now io rq db :
  status (handle now io rq db).2 = 201%nat ->
  exists d t c n,
    rq = POST_posts (Some d) /\ valid d t c
    /\ insert now (trim t) (trim c) db = inr ((handle now io rq db).1, n)
    /\ (handle now io rq db).2
       = Response 201
           (Row (select_by_id (of_int64 n) (handle now io rq db).1))
    /\ (n <= 2 ^ 53 ->
        (handle now io rq db).2
        = Response 201
            (Row (Some (Post n (TEXT (trim t)) (TEXT (trim c)) now now)))).
Proof.
  destruct (handle_writes now io rq db)
    as [(_ & _ & H)|[(d & t & c & n & -> & Hv & _ & Hi & Hr)
                    |[(k & d & t & c & q & _ & _ & _ & _ & _ & ->)
                     |(k & q & _ & _ & _ & ->)]]]; [done|..].
  - rewrite Hr. destruct (read_error io); [done|]. intros _.
    exists d, t, c, n. repeat (split; [done|]). intros Hle.
    by rewrite (insert_exact _ _ _ _ _ _ Hi Hle),
         (insert_reread _ _ _ _ _ _ Hi).
  - by destruct (read_error io).
  - done.
Qed.



End Runs.

(** ** Round trip, validation order and update frame *)

(** C3.  For a valid [{title, content}] and a table whose rowids are
    below 2^53, the create answers 201 with a post [p] that is the row
    selected from the table after the insertion under [this.lastID]; a get
    by [p]'s id answers that same post.  Its title and content are the
    trimmed inputs as the store's UTF-8 text holds them: the trimmed
    inputs themselves when these are well-formed UTF-16, and otherwise the
    trimmed inputs with each unpaired surrogate replaced by U+FFFD.  They
    are trimmed strings, and trimming is idempotent.  Conversely, whatever
    the body and the storage, a create answered 201 on such a table had a
    valid payload and answers the row it inserted, which the table then
    holds under its id. *)
Theorem create_then_get_round_trip now d t c db :
  valid d t c -> rowid_exact db ->
  (exists db' p,
     Server.post_posts now d db
     = (db', Server.Response 201 (Server.Row (Some p)))
     /\ Server.select_by_id (JS.of_int64 (id p)) db' = Some p
     /\ Server.get_post (JS.of_int (id p)) db'
        = (db', Server.Response 200 (Server.Row (Some p)))
     /\ title p = JS.toWellFormed (JS.trim t)
     /\ content p = JS.toWellFormed (JS.trim c)
     /\ (JS.isWellFormed (JS.trim t) = true -> title p = JS.trim t)
     /\ (JS.isWellFormed (JS.trim c) = true -> content p = JS.trim c)
     /\ JS.trim (title p) = title p /\ JS.trim (content p) = content p
     /\ (forall s, JS.trim (JS.trim s) = JS.trim s))
  /\ (forall io body db' r,
        Server.app_post now io body db = (db', r) ->
        Server.status r = 201%nat ->
        exists d' t' c' p,
          body = Some d' /\ valid d' t' c'
          /\ r = Server.Response 201 (Server.Row (Some p))
          /\ Server.posts db' = Server.posts db ++ [p]
          /\ Server.select_by_id (JS.of_int (id p)) db' = Some p
          /\ title p = JS.toWellFormed (JS.trim t')
          /\ content p = JS.toWellFormed (JS.trim c')).
Proof.
  intros Hv Hex. split.
  - destruct (post_posts_exact now d t c db Hv Hex) as (_ & Hn & Hs & Hp).
    eexists _, _. split; [exact Hp|]. cbn [id title content].
    split; [by rewrite Hn|]. split.
    + rewrite get_post_healthy. cbn [JS.of_int JS.isFinite negb].
      fold (JS.of_int (Z.max (Server.sqlite_sequence db)
                         (Server.max_rowid (Server.posts db)) + 1)).
      by rewrite Hs.
    + destruct Hv as (_ & Ht & Hc). unfold Server.TEXT.
      split; [done|]. split; [done|].
      split; [apply toWellFormed_isWellFormed|].
      split; [apply toWellFormed_isWellFormed|].
      split; [by apply toWellFormed_trimmed|].
      split; [by apply toWellFormed_trimmed|]. apply trim_idem.
  - intros io body db' r E Hst.
    destruct (handle_created now io (Server.POST_posts body) db)
      as (d' & t' & c' & n & [= ->] & Hv' & Hi & _ & Hr);
      cbn [Server.handle] in *; rewrite E in *; [done|].
    cbn [fst snd] in *.
    pose proof (insert_reread _ _ _ _ _ _ Hi) as Hs.
    pose proof Hi as (Hn & Hdb)%insert_shape.
    exists d', t', c', (Post n (Server.TEXT (JS.trim t'))
                          (Server.TEXT (JS.trim c')) now now).
    split; [done|]. split; [done|]. split.
    { apply Hr. unfold rowid_exact in Hex. lia. }
    split; [by rewrite Hdb|]. by split.
Qed.

Lemma create_then_get_round_trip_witness :
  let d := PostData (JS.Str (JS.lit "  Hello "))
                    (JS.Str (JS.lit "This is a test post")) in
  valid d (JS.lit "  Hello ") (JS.lit "This is a test post")
  /\ rowid_exact Server.empty
  /\ exists db' p,
       Server.post_posts 5 d Server.empty
       = (db', Server.Response 201 (Server.Row (Some p)))
       /\ Server.select_by_id (JS.of_int64 (id p)) db' = Some p
       /\ Server.get_post (JS.of_int (id p)) db'
          = (db', Server.Response 200 (Server.Row (Some p)))
       /\ title p = JS.toWellFormed (JS.trim (JS.lit "  Hello "))
       /\ content p = JS.toWellFormed (JS.trim (JS.lit "This is a test post"))
       /\ (JS.isWellFormed (JS.trim (JS.lit "  Hello ")) = true ->
           title p = JS.trim (JS.lit "  Hello "))
       /\ (JS.isWellFormed (JS.trim (JS.lit "This is a test post")) = true ->
           content p = JS.trim (JS.lit "This is a test post"))
       /\ JS.trim (title p) = title p /\ JS.trim (content p) = content p
       /\ (forall s, JS.trim (JS.trim s) = JS.trim s).
Proof.
  assert (valid (PostData (JS.Str (JS.lit "  Hello "))
                          (JS.Str (JS.lit "This is a test post")))
                (JS.lit "  Hello ") (JS.lit "This is a test post")) as Hv.
  { split; [reflexivity|]. split; vm_compute; discriminate. }
  assert (rowid_exact Server.empty) as Hex by reflexivity.
  split; [exact Hv|]. split; [exact Hex|].
  exact (proj1 (create_then_get_round_trip 5 _ _ _ Server.empty Hv Hex)).
Defined.

(** C3, as first stated, fails on a valid title with an unpaired
    surrogate: the title [\ud800abc] is its own trimmed form, and the
    create and the get both answer the title U+FFFD [abc].  It also fails
    once the sequence counter has reached 2^53: the rowid 2^53 + 1 reaches
    the re-read as the double 2^53, which selects no row, and the create
    answers 201 with no post. *)
Lemma unpaired_surrogate_is_not_returned :
  let t := [55296; 97; 98; 99]%N in
  let c := JS.lit "This is a test post" in
  let p := Post 1 [65533; 97; 98; 99]%N c 5 5 in
  let db' := Server.Database [p] 1 in
  valid (PostData (JS.Str t) (JS.Str c)) t c
  /\ JS.trim t = t
  /\ Server.post_posts 5 (PostData (JS.Str t) (JS.Str c)) Server.empty
     = (db', Server.Response 201 (Server.Row (Some p)))
  /\ Server.get_post (JS.of_int (id p)) db'
     = (db', Server.Response 200 (Server.Row (Some p)))
  /\ title p <> JS.trim t
  /\ Server.post_posts 5 (PostData (JS.Str (JS.lit "abc")) (JS.Str c))
       (Server.Database [] (2 ^ 53))
     = (Server.Database [Post (2 ^ 53 + 1) (JS.lit "abc") c 5 5] (2 ^ 53 + 1),
        Server.Response 201 (Server.Row None)).
Proof.
  cbn zeta. split; [|split; [|split; [|split; [|split]]]];
    try reflexivity; try discriminate.
  split; [reflexivity|]. split; vm_compute; discriminate.
Qed.

(** C4.  Where the order of the checks breaks.  An update under a finite
    identifier whose title is no string and whose content is empty is not
    answered 400: [title?.trim()] throws and Express answers 500.  An
    update with no parsed body under an identifier that is no number is not
    answered 400 "Invalid id": the destructuring of [req.body] comes
    before the identifier check, throws, and Express answers 500.  The
    table is unchanged in both. *)
Theorem update_throws_before_the_checks :
  let db := Server.Database [Post 1 (JS.lit "a") (JS.lit "b") 10 10] 1 in
  Server.put_post 3 (JS.of_int 1) (PostData (JS.Other true) (JS.Str [])) db
  = (db, Server.Response 500
           (Server.ErrorPage (JS.lit "title?.trim is not a function")))
  /\ Server.put_post 3 (JS.of_int 7) (PostData (JS.Other true) JS.Undefined) db
     = (db, Server.Response 500
              (Server.ErrorPage (JS.lit "title?.trim is not a function")))
  /\ Server.app_put 3 Server.healthy JS.NaN None db
     = (db, Server.Response 500 (Server.ErrorPage Server.cannot_destructure)).
Proof. by cbn zeta. Qed.

(** X19.  The order of the checks where they are reached.  Get, update
    (with a parsed body) and delete check the identifier first: when it is
    no finite number each answers 400 "Invalid id", whatever the payload,
    the table and the storage.  Update then checks the payload: with a
    finite identifier and a missing or empty title, or a string title and a
    missing or empty content, it answers 400 whether or not the row
    exists.  Existence comes last: with a finite identifier (and, for
    update, a valid payload) that matches no row each answers 404 when its
    storage call succeeds.  The table is unchanged in all these cases.  An
    update with no parsed body throws before any check and is answered
    500. *)
Theorem validation_order now io n d db :
  (JS.isFinite n = false ->
     Server.app_get_post io n db
     = (db, Server.Response 400 (Server.Error (JS.lit "Invalid id")))
     /\ Server.app_put now io n (Some d) db
        = (db, Server.Response 400 (Server.Error (JS.lit "Invalid id")))
     /\ Server.app_delete io n db
        = (db, Server.Response 400 (Server.Error (JS.lit "Invalid id"))))
  /\ (JS.isFinite n = true ->
      blank (data_title d)
      \/ (exists s, data_title d = JS.Str s) /\ blank (data_content d) ->
      Server.app_put now io n (Some d) db
      = (db, Server.Response 400
               (Server.Error (JS.lit "Title and content required"))))
  /\ (JS.isFinite n = true -> Server.select_by_id n db = None ->
      (Server.read_error io = None ->
       Server.app_get_post io n db
       = (db, Server.Response 404 (Server.Error (JS.lit "Not found"))))
      /\ (Server.write_error io = None ->
          Server.app_delete io n db
          = (db, Server.Response 404 (Server.Error (JS.lit "Not found")))
          /\ (forall t c, valid d t c ->
              Server.app_put now io n (Some d) db
              = (db, Server.Response 404
                       (Server.Error (JS.lit "Not found"))))))
  /\ Server.app_put now io n None db
     = (db, Server.Response 500 (Server.ErrorPage Server.cannot_destructure)).
Proof.
  split; [|split; [|split]]; [| | |done].
  - intros Hn.
    unfold Server.app_get_post, Server.app_put, Server.app_delete.
    by rewrite Hn.
  - intros Hn Hb. unfold Server.app_put.
    by rewrite Hn, (blank_rejected d Hb).
  - intros Hn Hs. split.
    + intros Hr. unfold Server.app_get_post, Server.db_get.
      by rewrite Hn, Hr, Hs.
    + intros Hw. split.
      * unfold Server.app_delete, Server.db_run_delete. rewrite Hn, Hw.
        pose proof (delete_none n db Hs) as E.
        apply changes_zero in Hs.
        unfold Server.delete in *. cbn [fst negb] in *. by rewrite Hs, E.
      * intros t c Hv. rewrite (app_put_valid now io n d t c db Hn Hv).
        unfold Server.db_run_update. rewrite Hw.
        pose proof (update_none now (JS.trim t) (JS.trim c) n db Hs) as E.
        apply changes_zero in Hs.
        unfold Server.update in *. cbn [fst] in *. by rewrite Hs, E.
Qed.

Lemma validation_order_witness :
  let empty_payload := PostData JS.Undefined JS.Undefined in
  let good := PostData (JS.Str (JS.lit "abc")) (JS.Str (JS.lit "0123456789")) in
  let busy := Server.Storage (Some (JS.lit "SQLITE_BUSY"))
                             (Some (JS.lit "SQLITE_BUSY")) in
  Server.app_put 3 busy JS.NaN (Some empty_payload) Server.empty
  = (Server.empty, Server.Response 400 (Server.Error (JS.lit "Invalid id")))
  /\ Server.app_put 3 busy (JS.of_int 7) (Some empty_payload) Server.empty
     = (Server.empty,
        Server.Response 400
          (Server.Error (JS.lit "Title and content required")))
  /\ Server.app_put 3 Server.healthy (JS.of_int 7) (Some good) Server.empty
     = (Server.empty,
        Server.Response 404 (Server.Error (JS.lit "Not found"))).
Proof.
  split; [|split].
  - apply (validation_order 3
             (Server.Storage (Some (JS.lit "SQLITE_BUSY"))
                             (Some (JS.lit "SQLITE_BUSY")))
             JS.NaN (PostData JS.Undefined JS.Undefined) Server.empty).
    reflexivity.
  - apply (validation_order 3
             (Server.Storage (Some (JS.lit "SQLITE_BUSY"))
                             (Some (JS.lit "SQLITE_BUSY")))
             (JS.of_int 7) (PostData JS.Undefined JS.Undefined)
             Server.empty).
    + reflexivity.
    + left. left. reflexivity.
  - apply (validation_order 3 Server.healthy (JS.of_int 7)
             (PostData (JS.Str (JS.lit "abc")) (JS.Str (JS.lit "0123456789")))
             Server.empty) with (t := JS.lit "abc") (c := JS.lit "0123456789").
    + reflexivity.
    + reflexivity.
    + reflexivity.
    + split; [reflexivity|]. split; vm_compute; discriminate.
Defined.

(** C5.  An update with a valid payload under an identifier that selects
    a row answers 200 with that row as re-read after the statement: same id
    and created_at, the trimmed title and content as the store's UTF-8 text
    holds them, updated_at the time of the update.  The table keeps its
    length and its sequence counter, and every row either matches the
    identifier and is rewritten that way or is left as it was.  Under a
    finite identifier that selects no row the update answers 404 and the
    database is unchanged.  Conversely, whatever the body and the storage,
    an update answered 200 is such an update, and one answered 404 left the
    database unchanged. *)
Theorem update_frame now n d t c db :
  valid d t c ->
  (JS.isFinite n = true -> Server.select_by_id n db = None ->
   Server.put_post now n d db
   = (db, Server.Response 404 (Server.Error (JS.lit "Not found"))))
  /\ (forall p, Server.select_by_id n db = Some p ->
      exists db',
        let p' := Post (id p) (Server.TEXT (JS.trim t))
                       (Server.TEXT (JS.trim c)) (created_at p) now in
        Server.put_post now n d db
        = (db', Server.Response 200 (Server.Row (Some p')))
        /\ Server.select_by_id n db' = Some p'
        /\ length (Server.posts db') = length (Server.posts db)
        /\ Server.sqlite_sequence db' = Server.sqlite_sequence db
        /\ forall i q, Server.posts db !! i = Some q ->
             Server.posts db' !! i
             = Some (if Server.where_id n q
                     then Post (id q) (Server.TEXT (JS.trim t))
                               (Server.TEXT (JS.trim c)) (created_at q) now
                     else q))
  /\ (forall io body db' r,
      Server.app_put now io n body db = (db', r) ->
      (Server.status r = 200%nat ->
       exists d' t' c' p,
         body = Some d' /\ valid d' t' c'
         /\ Server.select_by_id n db = Some p
         /\ db' = (Server.update now (JS.trim t') (JS.trim c') n db).1
         /\ r = Server.Response 200
                  (Server.Row
                     (Some (Post (id p) (Server.TEXT (JS.trim t'))
                                 (Server.TEXT (JS.trim c'))
                                 (created_at p) now))))
      /\ (Server.status r = 404%nat -> db' = db)).
Proof.
  intros Hv. split; [|split].
  - intros Hn Hs. by eapply put_post_not_found.
  - intros p Hs. eexists. cbn zeta.
    split; [by apply put_post_found|].
    split; [by apply update_selects|].
    unfold Server.update. cbn [fst Server.posts Server.sqlite_sequence].
    split; [by rewrite length_map|]. split; [done|].
    intros i q Hq. by rewrite list_lookup_fmap, Hq.
  - intros io body db' r H.
    destruct (app_put_answers now io n body db db' r H) as [H2 H4]. split.
    + intros Hr. destruct (H2 Hr) as (d' & t' & c' & p & ? & ? & ? & _ & _ & ?).
      by exists d', t', c', p.
    + intros Hr. by destruct (H4 Hr).
Qed.

Lemma update_frame_witness :
  let d := PostData (JS.Str (JS.lit " New title ")) (JS.Str (JS.lit "x")) in
  let db := Server.Database [Post 1 (JS.lit "a") (JS.lit "b") 10 10;
                             Post 2 (JS.lit "c") (JS.lit "d") 11 11] 2 in
  Server.put_post 20 (JS.of_int 3) d db
  = (db, Server.Response 404 (Server.Error (JS.lit "Not found")))
  /\ exists db',
       Server.put_post 20 (JS.of_int 2) d db
       = (db', Server.Response 200
                 (Server.Row (Some (Post 2 (JS.lit "New title") (JS.lit "x")
                                         11 20))))
       /\ Server.posts db' !! 0%nat
          = Some (Post 1 (JS.lit "a") (JS.lit "b") 10 10).
Proof.
  pose (d := PostData (JS.Str (JS.lit " New title ")) (JS.Str (JS.lit "x"))).
  pose (db := Server.Database [Post 1 (JS.lit "a") (JS.lit "b") 10 10;
                               Post 2 (JS.lit "c") (JS.lit "d") 11 11] 2).
  assert (valid d (JS.lit " New title ") (JS.lit "x")) as Hv.
  { split; [reflexivity|]. split; vm_compute; discriminate. }
  split.
  - apply (update_frame 20 (JS.of_int 3) d _ _ db Hv); reflexivity.
  - destruct (update_frame 20 (JS.of_int 2) d _ _ db Hv) as (_ & H & _).
    destruct (H (Post 2 (JS.lit "c") (JS.lit "d") 11 11) eq_refl)
      as (db' & H1 & _ & _ & _ & H2).
    exists db'. split; [exact H1|]. exact (H2 0%nat _ eq_refl).
Defined.

(** ** Listing *)



(** ** Deletion and rowids *)

Section Deletion.
Import JS Server.






End Deletion.



(** ** Timestamps *)

Section Timestamps.
Import JS Server.

Lemma handle_timestamps t now io rq db :
  t <= now -> timestamps_by t db ->
  timestamps_by now (handle now io rq db).1.
Proof.
  intros Ht Hts. unfold timestamps_by in *. apply handle_preserves.
  - eapply Forall_impl; [exact Hts|]. cbn. intros. lia.
  - intros tt c db' n (_ & ->)%insert_shape. cbn [posts].
    apply Forall_app. split.
    + eapply Forall_impl; [exact Hts|]. cbn. intros. lia.
    + apply Forall_singleton. cbn. lia.
  - intros tt c n. unfold update. cbn [fst posts]. apply Forall_fmap.
    eapply Forall_impl; [exact Hts|]. intros p Hp. unfold compose.
    cbn in *. destruct (where_id n p); cbn; lia.
  - intros n. unfold delete. cbn [fst posts]. apply Forall_forall.
    intros p [Hp _]%filter_elem_of. rewrite Forall_forall in Hts.
    specialize (Hts p Hp). cbn in Hts. lia.
Qed.

Lemma run_timestamps reqs : forall t db,
  timestamps_by t db -> monotone t reqs ->
  Forall (fun p => created_at p <= updated_at p) (posts (run reqs db).1)
  /\ forall r p, r ∈ (run reqs db).2 -> p ∈ shown r ->
       created_at p <= updated_at p.
Proof.
  induction reqs as [|[[now io] rq] rest IH]; intros t db Hts Hm.
  { split; [|by intros r p ?%elem_of_nil].
    eapply Forall_impl; [exact Hts|]. cbn. intros. lia. }
  destruct Hm as [Ht Hm]. rewrite run_cons. cbn [fst snd].
  pose proof (handle_timestamps t now io rq db Ht Hts) as Hts'.
  destruct (IH _ _ Hts' Hm) as [H1 H2]. split; [done|].
  intros r p [->|Hin]%elem_of_cons Hp; [|eauto].
  apply handle_shown in Hp. unfold timestamps_by in Hts'.
  rewrite Forall_forall in Hts'. specialize (Hts' p Hp). cbn in Hts'. lia.
Qed.

End Timestamps.

(** C7.  A create answered 201 added one row to the table, with
    created_at and updated_at both the clock reading of the create; while
    rowids are below 2^53 that row is the post it answers.  An update
    answered 200 answers the row with its id and created_at unchanged and
    updated_at the clock reading of the update: no earlier than created_at
    when the update is served no earlier than the row was created, and
    earlier than created_at otherwise, for the update has no guard.  In a
    run whose clock readings never go back, started on a table whose rows
    satisfy created_at <= updated_at <= the first reading (the empty table
    in particular), every row of the table and every post of every
    response satisfies created_at <= updated_at, whatever the storage does
    and whether or not bodies were parsed. *)
Theorem timestamps_ordered :
  (forall now io body db db' r,
     Server.app_post now io body db = (db', r) ->
     Server.status r = 201%nat ->
     exists p,
       Server.posts db' = Server.posts db ++ [p]
       /\ created_at p = now /\ updated_at p = created_at p
       /\ (rowid_exact db ->
           r = Server.Response 201 (Server.Row (Some p))))
  /\ (forall now io n body db db' p p',
        Server.select_by_id n db = Some p ->
        Server.app_put now io n body db
        = (db', Server.Response 200 (Server.Row (Some p'))) ->
        id p' = id p /\ created_at p' = created_at p
        /\ updated_at p' = now
        /\ (created_at p <= now -> created_at p' <= updated_at p')
        /\ (now < created_at p -> updated_at p' < created_at p'))
  /\ (forall t0 reqs db db' rs,
        timestamps_by t0 db -> monotone t0 reqs ->
        Server.run reqs db = (db', rs) ->
        Forall (fun p => created_at p <= updated_at p) (Server.posts db')
        /\ forall r p, r ∈ rs -> p ∈ shown r ->
             created_at p <= updated_at p)
  /\ (forall t0, timestamps_by t0 Server.empty).
Proof.
  split; [|split; [|split]].
  - intros now io body db db' r E Hst.
    destruct (handle_created now io (Server.POST_posts body) db)
      as (d & t & c & n & _ & _ & Hi & _ & Hr);
      cbn [Server.handle] in *; rewrite E in *; [done|].
    cbn [fst snd] in *. pose proof Hi as (Hn & ->)%insert_shape.
    eexists. cbn [Server.posts]. split; [reflexivity|].
    cbn [created_at updated_at]. split; [done|]. split; [done|].
    intros Hex. apply Hr. unfold rowid_exact in Hex. lia.
  - intros now io n body db db' p p' Hs E.
    destruct (app_put_answers now io n body db db' _ E) as [H _].
    destruct (H eq_refl) as (d & t & c & q & _ & _ & Hq & _ & _ & _ & Hr).
    rewrite Hs in Hq. simplify_eq. cbn. repeat split; lia.
  - intros t0 reqs db db' rs Hts Hm Hrun.
    pose proof (run_timestamps reqs t0 db Hts Hm) as H.
    by rewrite Hrun in H.
  - intros t0. constructor.
Qed.

Lemma timestamps_ordered_witness :
  let d := PostData (JS.Str (JS.lit "title")) (JS.Str (JS.lit "content")) in
  let busy := Server.Storage None (Some (JS.lit "SQLITE_BUSY")) in
  let reqs := [(5, Server.healthy, Server.POST_posts (Some d));
               (5, Server.healthy, Server.PUT_post (JS.of_int 1) (Some d));
               (7, busy, Server.PUT_post (JS.of_int 1) (Some d));
               (9, Server.healthy, Server.PUT_post (JS.of_int 1) None);
               (9, Server.healthy, Server.GET_posts)] in
  monotone 0 reqs
  /\ Forall (fun p => created_at p <= updated_at p)
       (Server.posts (Server.run reqs Server.empty).1).
Proof.
  cbn zeta.
  assert (monotone 0
            [(5, Server.healthy,
              Server.POST_posts
                (Some (PostData (JS.Str (JS.lit "title"))
                                (JS.Str (JS.lit "content")))));
             (5, Server.healthy,
              Server.PUT_post (JS.of_int 1)
                (Some (PostData (JS.Str (JS.lit "title"))
                                (JS.Str (JS.lit "content")))));
             (7, Server.Storage None (Some (JS.lit "SQLITE_BUSY")),
              Server.PUT_post (JS.of_int 1)
                (Some (PostData (JS.Str (JS.lit "title"))
                                (JS.Str (JS.lit "content")))));
             (9, Server.healthy, Server.PUT_post (JS.of_int 1) None);
             (9, Server.healthy, Server.GET_posts)]) as Hm by (cbn; lia).
  split; [exact Hm|].
  destruct timestamps_ordered as (_ & _ & H & H0).
  exact (proj1 (H 0 _ Server.empty _ _ (H0 0) Hm (surjective_pairing _))).
Defined.

(** C7, as first stated, fails when the clock goes back between a create
    and an update: created at reading 10 and updated at reading 5, the
    post is stored and answered with updated_at before created_at. *)
Lemma update_before_creation :
  let d := PostData (JS.Str (JS.lit "title")) (JS.Str (JS.lit "content")) in
  let p := Post 1 (JS.lit "title") (JS.lit "content") 10 5 in
  Server.run [(10, Server.healthy, Server.POST_posts (Some d));
              (5, Server.healthy, Server.PUT_post (JS.of_int 1) (Some d))]
    Server.empty
  = (Server.Database [p] 1,
     [Server.Response 201
        (Server.Row (Some (Post 1 (JS.lit "title") (JS.lit "content") 10 10)));
      Server.Response 200 (Server.Row (Some p))])
  /\ updated_at p < created_at p.
Proof. by cbn zeta. Qed.

(** ** The client cache *)

Ltac unfold_model :=
  unfold Client.loadPosts, Client.createPost, Client.updatePost,
    Client.deletePost, Client.check, Client.on_error,
    Client.try_catch_finally, Client.setLoading, Client.notifyObservers,
    Client.get_posts, Client.set_posts, Client.throw, Client.lift,
    mbind, Client.M_bind, mret, Client.M_ret, events, cached, loading.

Ltac by_cases := repeat (case_match; cbn in *; simplify_eq); try done.

Section Cache.
Import JS Client.

(** [findIndex] gives the first index whose post satisfies the test. *)
Lemma findIndex_Some f ps i :
  findIndex f ps = Some i ->
  (exists q, ps !! i = Some q /\ f q = true)
  /\ forall j q, (j < i)%nat -> ps !! j = Some q -> f q = false.
Proof.
  revert i. induction ps as [|p ps IH]; intros i; cbn; [done|].
  destruct (f p) eqn:E.
  - intros [= <-]. split; [by exists p|]. intros j q Hj. lia.
  - destruct (findIndex f ps) as [k|]; [|done]. intros [= <-].
    destruct (IH k eq_refl) as [Hq Hlt]. split; [done|].
    intros [|j] q Hj; cbn; [by intros [= <-]|].
    apply Hlt. lia.
Qed.

Lemma findIndex_None f ps :
  findIndex f ps = None <-> Forall (fun q => f q = false) ps.
Proof.
  induction ps as [|p ps IH]; cbn; [by split; [constructor|]|].
  rewrite Forall_cons, <- IH. destruct (f p); [intuition congruence|].
  destruct (findIndex f ps); cbn; intuition congruence.
Qed.

Lemma filter_all {A} (f : A -> bool) l :
  Forall (fun a => f a = true) l -> List.filter f l = l.
Proof.
  induction 1 as [|a l Ha _ IH]; cbn; [done|]. by rewrite Ha, IH.
Qed.

(** What a mutation does when validation passes and the server answers
    with a success status and a body that parses. *)
Lemma createPost_ok d r p m :
  validatePostData d = Return [] -> ok r = true -> json r = Return p ->
  createPost d (Resolves r) m
  = (Model (p :: posts m) false,
     [onLoadingChange true; onPostCreated p; onLoadingChange false],
     Return p).
Proof. intros Hv Ho Hj. unfold_model. by rewrite Hv, Ho, Hj. Qed.

Lemma updatePost_ok n d r p m :
  isFinite n = true ->
  validatePostData d = Return [] -> ok r = true -> json r = Return p ->
  updatePost n d (Resolves r) m
  = (Model (match findIndex (has_id n) (posts m) with
            | Some idx => <[idx := p]> (posts m)
            | None => posts m
            end) false,
     [onLoadingChange true; onPostUpdated p; onLoadingChange false],
     Return p).
Proof.
  intros Hn Hv Ho Hj. unfold_model. rewrite Hn, Hv, Ho, Hj. cbn.
  by destruct (findIndex (has_id n) (posts m)).
Qed.

Lemma deletePost_ok n (r : response unit) m :
  isFinite n = true -> ok r = true ->
  deletePost n (Resolves r) m
  = (Model (List.filter (fun q => negb (has_id n q)) (posts m)) false,
     [onLoadingChange true; onPostDeleted n; onLoadingChange false],
     Return true).
Proof. intros Hn Ho. unfold_model. by rewrite Hn, Ho. Qed.

(** A mutation returns only in that case. *)
Lemma createPost_returns d f m m' ev p :
  createPost d f m = (m', ev, Return p) ->
  exists r, f = Resolves r /\ validatePostData d = Return []
            /\ ok r = true /\ json r = Return p.
Proof.
  unfold_model. destruct (validatePostData d) as [[|e es]|x] eqn:Hv;
    cbn; [|done..].
  destruct f as [x|r]; cbn; [done|].
  destruct (ok r) eqn:Ho; cbn; [|done].
  destruct (json r) as [q|x] eqn:Hj; cbn; [|done].
  intros [= <- <- <-]. by exists r.
Qed.

Lemma updatePost_returns n d f m m' ev p :
  updatePost n d f m = (m', ev, Return p) ->
  exists r, f = Resolves r /\ isFinite n = true
            /\ validatePostData d = Return []
            /\ ok r = true /\ json r = Return p.
Proof.
  unfold_model. destruct (isFinite n) eqn:Hn; cbn; [|done].
  destruct (validatePostData d) as [[|e es]|x] eqn:Hv; cbn; [|done..].
  destruct f as [x|r]; cbn; [done|].
  destruct (ok r) eqn:Ho; cbn; [|done].
  destruct (json r) as [q|x] eqn:Hj; cbn; [|done].
  destruct (findIndex (has_id n) (posts m)); cbn;
    intros [= <- <- <-]; by exists r.
Qed.

Lemma deletePost_returns n f m m' ev b :
  deletePost n f m = (m', ev, Return b) ->
  exists r, f = Resolves r /\ isFinite n = true /\ ok r = true.
Proof.
  unfold_model. destruct (isFinite n) eqn:Hn; cbn; [|done].
  destruct f as [x|r]; cbn; [done|].
  destruct (ok r) eqn:Ho; cbn.
  - intros _. by exists r.
  - destruct (status r =? 204)%nat eqn:E; cbn; [|done].
    apply Nat.eqb_eq in E. unfold ok in Ho. rewrite E in Ho. done.
Qed.

End Cache.

(** C8.  A create returns exactly when its data pass the check, the fetch
    resolves with a success status and the body parses: it then returns
    the server's post, puts it in front of the cached sequence and
    notifies onPostCreated with it.  An update returns exactly when its
    identifier is a finite number, its data pass the check, the fetch
    resolves with a success status and the body parses: it then returns
    the server's post, writes it at the first index whose cached post has
    the identifier (the sequence keeps its length and its other entries)
    and notifies onPostUpdated with it.  A delete returns exactly when its
    identifier is a finite number and the fetch resolves with a success
    status: it then keeps exactly the cached posts whose id differs from
    the identifier and notifies onPostDeleted with the identifier as a
    finite number. *)
Theorem cache_follows_server :
  (forall d r p m,
     Client.validatePostData d = JS.Return [] ->
     Client.ok r = true -> Client.json r = JS.Return p ->
     Client.createPost d (Client.Resolves r) m
     = (Client.Model (p :: Client.posts m) false,
        [Client.onLoadingChange true; Client.onPostCreated p;
         Client.onLoadingChange false],
        JS.Return p))
  /\ (forall d f m m' ev p,
        Client.createPost d f m = (m', ev, JS.Return p) ->
        (exists r, f = Client.Resolves r
                   /\ Client.validatePostData d = JS.Return []
                   /\ Client.ok r = true /\ Client.json r = JS.Return p)
        /\ Client.posts m' = p :: Client.posts m
        /\ ev = [Client.onLoadingChange true; Client.onPostCreated p;
                 Client.onLoadingChange false])
  /\ (forall n d r p m,
        JS.isFinite n = true -> Client.validatePostData d = JS.Return [] ->
        Client.ok r = true -> Client.json r = JS.Return p ->
        Client.updatePost n d (Client.Resolves r) m
        = (Client.Model
             (match Client.findIndex (Client.has_id n) (Client.posts m) with
              | Some i => <[i := p]> (Client.posts m)
              | None => Client.posts m
              end) false,
           [Client.onLoadingChange true; Client.onPostUpdated p;
            Client.onLoadingChange false],
           JS.Return p))
  /\ (forall n d f m m' ev p,
        Client.updatePost n d f m = (m', ev, JS.Return p) ->
        (exists r, f = Client.Resolves r /\ JS.isFinite n = true
                   /\ Client.validatePostData d = JS.Return []
                   /\ Client.ok r = true /\ Client.json r = JS.Return p)
        /\ ev = [Client.onLoadingChange true; Client.onPostUpdated p;
                 Client.onLoadingChange false]
        /\ (forall i, Client.findIndex (Client.has_id n) (Client.posts m)
                      = Some i ->
              Client.posts m' = <[i := p]> (Client.posts m)
              /\ Client.posts m' !! i = Some p
              /\ (exists q, Client.posts m !! i = Some q
                            /\ JS.equals_int n (id q) = true)
              /\ (forall j q, (j < i)%nat -> Client.posts m !! j = Some q ->
                    JS.equals_int n (id q) = false)
              /\ length (Client.posts m') = length (Client.posts m)
              /\ (forall j, j <> i ->
                    Client.posts m' !! j = Client.posts m !! j)))
  /\ (forall n (r : Client.response unit) m,
        JS.isFinite n = true -> Client.ok r = true ->
        Client.deletePost n (Client.Resolves r) m
        = (Client.Model
             (List.filter (fun q => negb (JS.equals_int n (id q)))
                (Client.posts m)) false,
           [Client.onLoadingChange true; Client.onPostDeleted n;
            Client.onLoadingChange false],
           JS.Return true))
  /\ (forall n f m m' ev b,
        Client.deletePost n f m = (m', ev, JS.Return b) ->
        (exists r, f = Client.Resolves r /\ Client.ok r = true)
        /\ b = true /\ JS.isFinite n = true
        /\ Client.posts m'
           = List.filter (fun q => negb (JS.equals_int n (id q)))
               (Client.posts m)
        /\ (forall q, q ∈ Client.posts m' <->
                      q ∈ Client.posts m /\ JS.equals_int n (id q) = false)
        /\ ev = [Client.onLoadingChange true; Client.onPostDeleted n;
                 Client.onLoadingChange false]).
Proof.
  split; [|split; [|split; [|split; [|split]]]].
  - intros d r p m Hv Ho Hj. by apply createPost_ok.
  - intros d f m m' ev p E.
    destruct (createPost_returns _ _ _ _ _ _ E) as (r & -> & Hv & Ho & Hj).
    rewrite (createPost_ok d r p m Hv Ho Hj) in E. simplify_eq.
    split; [by exists r|done].
  - intros n d r p m Hn Hv Ho Hj. by apply updatePost_ok.
  - intros n d f m m' ev p E.
    destruct (updatePost_returns _ _ _ _ _ _ _ E)
      as (r & -> & Hn & Hv & Ho & Hj).
    rewrite (updatePost_ok n d r p m Hn Hv Ho Hj) in E. simplify_eq.
    split; [by exists r|]. split; [done|].
    intros i Hi. rewrite Hi. cbn [Client.posts].
    destruct (findIndex_Some _ _ _ Hi) as [(q & Hq & Hm) Hlt].
    split; [done|]. split.
    { apply list_lookup_insert_eq. by eapply lookup_lt_Some. }
    split; [by exists q|]. split; [exact Hlt|].
    split; [apply length_insert|].
    intros j Hj'. by apply list_lookup_insert_ne.
  - intros n r m Hn Ho. by rewrite (deletePost_ok n r m Hn Ho).
  - intros n f m m' ev b E.
    destruct (deletePost_returns _ _ _ _ _ _ E) as (r & -> & Hn & Ho).
    rewrite (deletePost_ok n r m Hn Ho) in E. simplify_eq.
    split; [by exists r|].
    split; [done|]. split; [done|]. split; [done|]. split; [|done].
    intros q. cbn [Client.posts]. rewrite filter_elem_of.
    unfold Client.has_id. by rewrite negb_true_iff.
Qed.

Lemma cache_follows_server_witness :
  let a := Post 1 (JS.lit "one") (JS.lit "first post") 10 10 in
  let b := Post 2 (JS.lit "two") (JS.lit "second post") 11 11 in
  let b' := Post 2 (JS.lit "TWO") (JS.lit "second post, edited") 11 12 in
  let c := Post 3 (JS.lit "three") (JS.lit "third post") 13 13 in
  let d2 := PostData (JS.Str (JS.lit "TWO"))
                     (JS.Str (JS.lit "second post, edited")) in
  let d3 := PostData (JS.Str (JS.lit " three "))
                     (JS.Str (JS.lit "third post")) in
  Client.createPost d3
    (Client.Resolves (Client.Response 201 None (JS.Return c)))
    (Client.Model [b; a] false)
  = (Client.Model [c; b; a] false,
     [Client.onLoadingChange true; Client.onPostCreated c;
      Client.onLoadingChange false],
     JS.Return c)
  /\ Client.updatePost (JS.of_int 2) d2
       (Client.Resolves (Client.Response 200 None (JS.Return b')))
       (Client.Model [c; b; a] false)
     = (Client.Model [c; b'; a] false,
        [Client.onLoadingChange true; Client.onPostUpdated b';
         Client.onLoadingChange false],
        JS.Return b')
  /\ Client.deletePost (JS.of_int 2)
       (Client.Resolves (Client.Response 200 None (JS.Return tt)))
       (Client.Model [c; b'; a] false)
     = (Client.Model [c; a] false,
        [Client.onLoadingChange true; Client.onPostDeleted (JS.of_int 2);
         Client.onLoadingChange false],
        JS.Return true).
Proof.
  cbn zeta.
  destruct cache_follows_server as (Hc & _ & Hu & _ & Hd & _).
  split; [|split].
  - exact (Hc (PostData (JS.Str (JS.lit " three "))
                        (JS.Str (JS.lit "third post")))
              (Client.Response 201 None
                 (JS.Return (Post 3 (JS.lit "three") (JS.lit "third post")
                               13 13)))
              _
              (Client.Model [Post 2 (JS.lit "two") (JS.lit "second post") 11 11;
                             Post 1 (JS.lit "one") (JS.lit "first post") 10 10]
                            false)
              eq_refl eq_refl eq_refl).
  - exact (Hu (JS.of_int 2)
              (PostData (JS.Str (JS.lit "TWO"))
                        (JS.Str (JS.lit "second post, edited")))
              (Client.Response 200 None
                 (JS.Return (Post 2 (JS.lit "TWO")
                               (JS.lit "second post, edited") 11 12)))
              _
              (Client.Model [Post 3 (JS.lit "three") (JS.lit "third post")
                                  13 13;
                             Post 2 (JS.lit "two") (JS.lit "second post") 11 11;
                             Post 1 (JS.lit "one") (JS.lit "first post") 10 10]
                            false)
              eq_refl eq_refl eq_refl eq_refl).
  - exact (Hd (JS.of_int 2) (Client.Response 200 None (JS.Return tt))
              (Client.Model [Post 3 (JS.lit "three") (JS.lit "third post")
                                  13 13;
                             Post 2 (JS.lit "TWO")
                               (JS.lit "second post, edited") 11 12;
                             Post 1 (JS.lit "one") (JS.lit "first post") 10 10]
                            false)
              eq_refl eq_refl).
Defined.



(** C10. With a finite identifier that no cached post carries, an update
    with valid data and a delete, answered by the server with a success
    status (and, for the update, a body that parses), return normally,
    notify onPostUpdated with the server's post, respectively onPostDeleted
    with the identifier, and leave the cached sequence as it was. *)
Theorem mutation_needs_no_cached_post n m :
  JS.isFinite n = true ->
  Forall (fun q => JS.equals_int n (id q) = false) (Client.posts m) ->
  (forall d r p,
     Client.validatePostData d = JS.Return [] -> Client.ok r = true ->
     Client.json r = JS.Return p ->
     Client.updatePost n d (Client.Resolves r) m
     = (Client.Model (Client.posts m) false,
        [Client.onLoadingChange true; Client.onPostUpdated p;
         Client.onLoadingChange false],
        JS.Return p))
  /\ (forall r : Client.response unit,
        Client.ok r = true ->
        Client.deletePost n (Client.Resolves r) m
        = (Client.Model (Client.posts m) false,
           [Client.onLoadingChange true; Client.onPostDeleted n;
            Client.onLoadingChange false],
           JS.Return true))
  /\ (forall d f m' ev p,
        Client.updatePost n d f m = (m', ev, JS.Return p) ->
        Client.posts m' = Client.posts m /\ Client.onPostUpdated p ∈ ev)
  /\ (forall f m' ev b,
        Client.deletePost n f m = (m', ev, JS.Return b) ->
        Client.posts m' = Client.posts m /\ Client.onPostDeleted n ∈ ev).
Proof.
  intros Hn Hno.
  assert (Client.findIndex (Client.has_id n) (Client.posts m) = None) as Hi.
  { by apply findIndex_None. }
  assert (List.filter (fun q => negb (Client.has_id n q)) (Client.posts m)
          = Client.posts m) as Hf.
  { apply filter_all. eapply Forall_impl; [exact Hno|].
    intros q Hq. unfold Client.has_id. by rewrite Hq. }
  assert (forall d r p,
            Client.validatePostData d = JS.Return [] -> Client.ok r = true ->
            Client.json r = JS.Return p ->
            Client.updatePost n d (Client.Resolves r) m
            = (Client.Model (Client.posts m) false,
               [Client.onLoadingChange true; Client.onPostUpdated p;
                Client.onLoadingChange false],
               JS.Return p)) as Hu.
  { intros d r p Hv Ho Hj.
    by rewrite (updatePost_ok n d r p m Hn Hv Ho Hj), Hi. }
  assert (forall r : Client.response unit,
            Client.ok r = true ->
            Client.deletePost n (Client.Resolves r) m
            = (Client.Model (Client.posts m) false,
               [Client.onLoadingChange true; Client.onPostDeleted n;
                Client.onLoadingChange false],
               JS.Return true)) as Hd.
  { intros r Ho. by rewrite (deletePost_ok n r m Hn Ho), Hf. }
  split; [exact Hu|]. split; [exact Hd|]. split.
  - intros d f m' ev p E.
    destruct (updatePost_returns _ _ _ _ _ _ _ E)
      as (r & -> & _ & Hv & Ho & Hj).
    rewrite (Hu d r p Hv Ho Hj) in E. simplify_eq. split; [done|].
    apply elem_of_cons. right. by left.
  - intros f m' ev b E.
    destruct (deletePost_returns _ _ _ _ _ _ E) as (r & -> & _ & Ho).
    rewrite (Hd r Ho) in E. simplify_eq. split; [done|].
    apply elem_of_cons. right. by left.
Qed.

Lemma mutation_needs_no_cached_post_witness :
  let a := Post 1 (JS.lit "one") (JS.lit "first post") 10 10 in
  let m := Client.Model [a] false in
  JS.isFinite (JS.of_int 7) = true
  /\ Forall (fun q => JS.equals_int (JS.of_int 7) (id q) = false)
       (Client.posts m)
  /\ Client.deletePost (JS.of_int 7)
       (Client.Resolves (Client.Response 200 None (JS.Return tt))) m
     = (Client.Model [a] false,
        [Client.onLoadingChange true; Client.onPostDeleted (JS.of_int 7);
         Client.onLoadingChange false],
        JS.Return true).
Proof.
  cbn zeta.
  assert (Forall (fun q => JS.equals_int (JS.of_int 7) (id q) = false)
            [Post 1 (JS.lit "one") (JS.lit "first post") 10 10]) as Hno.
  { repeat constructor. }
  split; [reflexivity|]. split; [exact Hno|].
  exact (proj1 (proj2 (mutation_needs_no_cached_post (JS.of_int 7)
                         (Client.Model
                            [Post 1 (JS.lit "one") (JS.lit "first post") 10 10]
                            false)
                         eq_refl Hno))
           (Client.Response 200 None (JS.Return tt)) eq_refl).
Defined.

(** ** The validation boundary *)

Section Boundary.
Import JS Client.

Lemma validate_field_string what required short least s :
  (0 < least)%nat ->
  exists errs,
    validate_field what required short least (Str s) = Return errs
    /\ (errs = [] <-> (least <= length (trim s))%nat).
Proof.
  intros Hl. destruct s as [|a s].
  - exists [required]. split; [done|]. cbn. split; [done|lia].
  - cbn [validate_field].
    destruct (Nat.eqb_spec (length (trim (a :: s))) 0) as [E|E].
    { exists [required]. split; [done|]. rewrite E. split; [done|lia]. }
    destruct (Nat.ltb_spec (length (trim (a :: s))) least).
    + exists [short]. split; [done|]. split; [done|lia].
    + by exists [].
Qed.

Lemma validatePostData_strings t c :
  exists errs,
    validatePostData (PostData (Str t) (Str c)) = Return errs
    /\ (errs = [] <->
        (3 <= length (trim t))%nat /\ (10 <= length (trim c))%nat).
Proof.
  unfold validatePostData. cbn [data_title data_content].
  destruct (validate_field_string "title" (lit "Title is required")
              (lit "Title must be at least 3 characters long") 3 t)
    as (e1 & -> & H1); [lia|].
  destruct (validate_field_string "content" (lit "Content is required")
              (lit "Content must be at least 10 characters long") 10 c)
    as (e2 & -> & H2); [lia|].
  exists (e1 ++ e2). split; [done|].
  rewrite <- H1, <- H2. split.
  - by intros [-> ->]%app_eq_nil.
  - by intros [-> ->].
Qed.

(** When validation finds errors neither mutation looks at the network:
    both throw the joined messages, whatever the fetch would give. *)
Lemma createPost_invalid d e es f m :
  validatePostData d = Return (e :: es) ->
  createPost d f m
  = (Model (posts m) false,
     [onLoadingChange true; onError (join (lit ". ") (e :: es));
      onLoadingChange false],
     Throw (join (lit ". ") (e :: es))).
Proof. intros Hv. unfold_model. by rewrite Hv. Qed.

Lemma updatePost_invalid n d e es f m :
  isFinite n = true -> validatePostData d = Return (e :: es) ->
  updatePost n d f m
  = (Model (posts m) false,
     [onLoadingChange true; onError (join (lit ". ") (e :: es));
      onLoadingChange false],
     Throw (join (lit ". ") (e :: es))).
Proof. intros Hn Hv. unfold_model. by rewrite Hn, Hv. Qed.

End Boundary.

(** C1 as stated fails: the store accepts, on create and on update, a
    title that trims to 2 code units and a content of 9. *)
Lemma store_accepts_short_fields :
  let d := PostData (JS.Str (JS.lit " ab ")) (JS.Str (JS.lit "123456789")) in
  length (JS.trim (JS.lit " ab ")) = 2%nat
  /\ length (JS.trim (JS.lit "123456789")) = 9%nat
  /\ Server.post_posts 5 d Server.empty
     = (Server.Database [Post 1 (JS.lit "ab") (JS.lit "123456789") 5 5] 1,
        Server.Response 201
          (Server.Row (Some (Post 1 (JS.lit "ab") (JS.lit "123456789") 5 5))))
  /\ Server.put_post 6 (JS.of_int 1) d
       (Server.Database
          [Post 1 (JS.lit "long enough") (JS.lit "long enough, too") 5 5] 1)
     = (Server.Database [Post 1 (JS.lit "ab") (JS.lit "123456789") 5 6] 1,
        Server.Response 200
          (Server.Row (Some (Post 1 (JS.lit "ab") (JS.lit "123456789") 5 6)))).
Proof. cbn zeta. repeat split; reflexivity. Qed.

(** C1, as the code has it.  For string fields and, on update, a finite
    identifier: the store rejects with 400, identically on create and on
    update and leaving the table alone, exactly the payloads in which the
    title or the content trims to the empty string; any other payload is
    accepted whatever the lengths (the create answers 201 while rowids are
    available, the update 200 or 404 by the existence of the row).  The
    bounds of 3 and 10 are those of the client's validatePostData, which
    finds no error exactly when the trimmed title has at least 3 code units
    and the trimmed content at least 10; otherwise createPost and updatePost
    throw the same message without regard to the network. *)
Theorem validation_boundary now n t c db :
  JS.isFinite n = true ->
  let d := PostData (JS.Str t) (JS.Str c) in
  (JS.trim t = [] \/ JS.trim c = [] ->
     Server.post_posts now d db
     = (db, Server.Response 400
              (Server.Error (JS.lit "Title and content required")))
     /\ Server.put_post now n d db
        = (db, Server.Response 400
                 (Server.Error (JS.lit "Title and content required"))))
  /\ (JS.trim t <> [] -> JS.trim c <> [] ->
      Server.status (Server.post_posts now d db).2 <> 400%nat
      /\ (rowid_available db ->
          Server.status (Server.post_posts now d db).2 = 201%nat)
      /\ Server.status (Server.put_post now n d db).2
         = match Server.select_by_id n db with
           | Some _ => 200%nat
           | None => 404%nat
           end)
  /\ (Client.validatePostData d = JS.Return [] <->
      (3 <= length (JS.trim t))%nat /\ (10 <= length (JS.trim c))%nat)
  /\ (~ ((3 <= length (JS.trim t))%nat /\ (10 <= length (JS.trim c))%nat) ->
      exists message, forall m,
        (forall f, Client.createPost d f m
           = (Client.Model (Client.posts m) false,
              [Client.onLoadingChange true; Client.onError message;
               Client.onLoadingChange false],
              JS.Throw message))
        /\ (forall f, Client.updatePost n d f m
              = (Client.Model (Client.posts m) false,
                 [Client.onLoadingChange true; Client.onError message;
                  Client.onLoadingChange false],
                 JS.Throw message))).
Proof.
  intros Hn d. split; [|split; [|split]].
  - intros Hb.
    assert (Server.required_missing d = JS.Return true) as E.
    { apply blank_rejected. cbn [d data_title data_content].
      destruct Hb as [Ht|Hc].
      - left. right. right. by exists t.
      - right. split; [by exists t|]. right. right. by exists c. }
    rewrite post_posts_healthy, put_post_healthy. by rewrite Hn, E.
  - intros Ht Hc. assert (valid d t c) as Hv by done.
    rewrite (post_posts_valid now d t c db Hv). split; [|split].
    + by destruct (Server.insert now (JS.trim t) (JS.trim c) db) as [|[]].
    + intros Hav.
      by destruct (insert_selects now (JS.trim t) (JS.trim c) db Hav)
        as (k & _ & -> & _).
    + destruct (Server.select_by_id n db) as [p|] eqn:Hs.
      * by rewrite (put_post_found now n d t c db p Hv Hs).
      * by rewrite (put_post_not_found now n d t c db Hn Hv Hs).
  - destruct (validatePostData_strings t c) as (errs & E & H).
    fold d in E. rewrite E, <- H. split; [by intros [= ->]|by intros ->].
  - intros Hshort.
    destruct (validatePostData_strings t c) as (errs & E & H).
    fold d in E. destruct errs as [|e es]; [by destruct Hshort; apply H|].
    exists (JS.join (JS.lit ". ") (e :: es)). intros m. split; intros f.
    + by apply createPost_invalid.
    + by apply updatePost_invalid.
Qed.

Lemma validation_boundary_witness :
  let d := PostData (JS.Str (JS.lit "ab")) (JS.Str (JS.lit "123456789")) in
  JS.isFinite (JS.of_int 1) = true
  /\ Server.status (Server.post_posts 5 d Server.empty).2 = 201%nat
  /\ Client.validatePostData d <> JS.Return [].
Proof.
  cbn zeta. split; [reflexivity|].
  destruct (validation_boundary 5 (JS.of_int 1) (JS.lit "ab")
              (JS.lit "123456789") Server.empty eq_refl)
    as (_ & H1 & H2 & _).
  split.
  - apply H1; [vm_compute; discriminate..|reflexivity].
  - intros E. apply H2 in E. vm_compute in E. lia.
Defined.

(** ** Further properties of the store *)

Section Writes.
Import JS Server.

(** An invariant of the requests is an invariant of the runs, and every
    response of a run is the response to a request served on a database
    that satisfies it. *)
Lemma run_invariant (P : database -> Prop) :
  (forall now io rq db, P db -> P (handle now io rq db).1) ->
  forall reqs db, P db ->
    P (run reqs db).1
    /\ forall r, r ∈ (run reqs db).2 ->
         exists now io rq db0, P db0 /\ r = (handle now io rq db0).2.
Proof.
  intros Hstep reqs.
  induction reqs as [|[[now io] rq] rest IH]; intros db HP.
  { split; [done|]. by intros r ?%elem_of_nil. }
  rewrite run_cons. cbn [fst snd].
  destruct (IH _ (Hstep now io rq db HP)) as [H1 H2]. split; [done|].
  intros r [->|Hin]%elem_of_cons; [|auto]. by exists now, io, rq, db.
Qed.

(** What the store writes for a valid payload is presentable. *)
Lemma valid_presentable d t c n created updated :
  valid d t c ->
  presentable (Post n (TEXT (trim t)) (TEXT (trim c)) created updated).
Proof.
  intros (_ & Ht & Hc). unfold presentable, TEXT. cbn [title content].
  destruct (toWellFormed_trimmed t Ht), (toWellFormed_trimmed c Hc).
  done.
Qed.

Lemma handle_presentable now io rq db :
  Forall presentable (posts db) ->
  Forall presentable (posts (handle now io rq db).1).
Proof.
  intros H.
  destruct (handle_writes now io rq db)
    as [(-> & _)|[(d & t & c & n & _ & Hv & _ & Hi & _)
                 |[(k & d & t & c & p & _ & Hv & _ & _ & -> & _)
                  |(k & p & _ & _ & _ & ->)]]]; [done|..].
  - apply insert_shape in Hi as [_ ->]. cbn [posts].
    apply Forall_app. split; [done|]. apply Forall_singleton.
    by eapply valid_presentable.
  - unfold update. cbn [fst posts]. apply Forall_fmap.
    eapply Forall_impl; [exact H|]. intros q Hq. unfold compose.
    destruct (where_id k q); [|done]. by eapply valid_presentable.
  - unfold delete. cbn [fst posts]. apply Forall_forall.
    intros q [Hq _]%filter_elem_of. rewrite Forall_forall in H. auto.
Qed.

End Writes.

(** X1.  Which requests write.  A request that only reads leaves the
    database exactly as it was, and so does a request answered 400 or 404.
    A request answered 500 leaves it as it was when the storage failed no
    read: the one request that is refused after it wrote is a create or an
    update whose statement succeeded and whose re-read failed; it answers
    500 with the error of the re-read, and the row stays inserted or
    rewritten.  A database that changed was changed by a create answered
    201, an update or delete answered 200, or such a create or update. *)
Theorem refused_requests_write_nothing now io rq db :
  let db' := (Server.handle now io rq db).1 in
  let r := (Server.handle now io rq db).2 in
  (reads rq = true \/ Server.status r = 400%nat \/ Server.status r = 404%nat
   -> db' = db)
  /\ ((400 <= Server.status r)%nat -> Server.read_error io = None ->
      db' = db)
  /\ (db' = db
      \/ (exists d, rq = Server.POST_posts (Some d)
                    /\ Server.status r = 201%nat)
      \/ (exists k d, rq = Server.PUT_post k (Some d)
                      /\ Server.status r = 200%nat)
      \/ (exists k, rq = Server.DELETE_post k /\ Server.status r = 200%nat)
      \/ (exists d e2,
            (rq = Server.POST_posts (Some d)
             \/ exists k, rq = Server.PUT_post k (Some d))
            /\ Server.write_error io = None
            /\ Server.read_error io = Some e2
            /\ r = Server.Response 500 (Server.Error e2)))
  /\ (forall d t c e2,
        valid d t c -> rowid_available db ->
        Server.write_error io = None -> Server.read_error io = Some e2 ->
        exists n,
          Server.app_post now io (Some d) db
          = (Server.Database
               (Server.posts db
                  ++ [Post n (Server.TEXT (JS.trim t))
                        (Server.TEXT (JS.trim c)) now now]) n,
             Server.Response 500 (Server.Error e2))).
Proof.
  cbn zeta. split; [|split; [|split]].
  - intros H.
    destruct (handle_writes now io rq db)
      as [(E & _)|[(d & t & c & n & -> & _ & _ & _ & Hr)
                  |[(k & d & t & c & p & -> & _ & _ & _ & _ & Hr)
                   |(k & p & -> & _ & _ & Hr)]]]; [done|..];
      rewrite Hr in H; destruct (Server.read_error io);
      by destruct H as [|[|]].
  - intros H Hio.
    destruct (handle_writes now io rq db)
      as [(E & _)|[(d & t & c & n & -> & _ & _ & _ & Hr)
                  |[(k & d & t & c & p & -> & _ & _ & _ & _ & Hr)
                   |(k & p & -> & _ & _ & Hr)]]]; [done|..];
      rewrite Hr, ?Hio in H; cbn in H;
      apply Nat.leb_le in H; vm_compute in H; discriminate.
  - destruct (handle_writes now io rq db)
      as [(E & _)|[(d & t & c & n & -> & _ & Hw & _ & Hr)
                  |[(k & d & t & c & p & -> & _ & _ & Hw & _ & Hr)
                   |(k & p & -> & _ & _ & Hr)]]]; [by left|..].
    + rewrite Hr. destruct (Server.read_error io) as [e2|] eqn:Hio.
      * do 4 right. exists d, e2. by auto.
      * right. left. by exists d.
    + rewrite Hr. destruct (Server.read_error io) as [e2|] eqn:Hio.
      * do 4 right. exists d, e2. by eauto 6.
      * right. right. left. by exists k, d.
    + rewrite Hr. right. right. right. left. by exists k.
  - intros d t c e2 Hv Hav Hw Hio.
    destruct (insert_selects now (JS.trim t) (JS.trim c) db Hav)
      as (n & _ & Hi & _).
    exists n. rewrite (app_post_valid now io d t c db Hv).
    unfold Server.db_run_insert, Server.db_get. by rewrite Hw, Hi, Hio.
Qed.

Lemma refused_requests_write_nothing_witness :
  let db := Server.Database [Post 1 (JS.lit "a") (JS.lit "b") 10 10] 1 in
  let busy := Server.Storage None (Some (JS.lit "SQLITE_BUSY")) in
  (Server.handle 20 busy
     (Server.PUT_post (JS.of_int 1)
        (Some (PostData (JS.Str (JS.lit " ")) JS.Null)))
     db).1 = db
  /\ (Server.handle 20 Server.healthy (Server.PUT_post (JS.of_int 1) None)
        db).1 = db.
Proof.
  cbn zeta. split.
  - destruct (refused_requests_write_nothing 20
                (Server.Storage None (Some (JS.lit "SQLITE_BUSY")))
                (Server.PUT_post (JS.of_int 1)
                   (Some (PostData (JS.Str (JS.lit " ")) JS.Null)))
                (Server.Database [Post 1 (JS.lit "a") (JS.lit "b") 10 10] 1))
      as (H & _).
    apply H. right. left. reflexivity.
  - destruct (refused_requests_write_nothing 20 Server.healthy
                (Server.PUT_post (JS.of_int 1) None)
                (Server.Database [Post 1 (JS.lit "a") (JS.lit "b") 10 10] 1))
      as (_ & H & _).
    apply H; [apply Nat.leb_le|]; reflexivity.
Defined.

(** X3. The store keeps its posts presentable: when every row has a
    non-empty title and content that trimming leaves as they are, so has
    every row after any run of requests, and so has every post any
    response of the run shows.  The empty table is such a table. *)
Theorem stored_posts_stay_presentable reqs db db' rs :
  Forall presentable (Server.posts db) ->
  Server.run reqs db = (db', rs) ->
  Forall presentable (Server.posts db')
  /\ forall r p, r ∈ rs -> p ∈ shown r -> presentable p.
Proof.
  intros H Hrun.
  destruct (run_invariant (fun db => Forall presentable (Server.posts db))
              handle_presentable reqs db H) as [H1 H2].
  rewrite Hrun in H1, H2. cbn [fst snd] in *. split; [done|].
  intros r p Hr Hp. destruct (H2 r Hr) as (now & io & rq & db0 & H0 & ->).
  apply handle_shown in Hp.
  pose proof (handle_presentable now io rq db0 H0) as H3.
  rewrite Forall_forall in H3. auto.
Qed.

Lemma stored_posts_stay_presentable_witness :
  let d := PostData (JS.Str (JS.lit "  padded  ")) (JS.Str (JS.lit " x ")) in
  let lone := PostData (JS.Str [32; 55296; 32]%N) (JS.Str (JS.lit " x ")) in
  let reqs := [(1, Server.healthy, Server.POST_posts (Some d));
               (2, Server.healthy, Server.PUT_post (JS.of_int 1) (Some lone));
               (3, Server.healthy, Server.GET_posts)] in
  Forall presentable (Server.posts (Server.run reqs Server.empty).1).
Proof.
  cbn zeta.
  exact (proj1 (stored_posts_stay_presentable _ Server.empty _ _
                  (Forall_nil_2 _) (surjective_pairing _))).
Defined.

Section Rowids.
Import JS Server.

Lemma consistent_max_rowid db :
  consistent db -> 0 <= sqlite_sequence db ->
  Z.max (sqlite_sequence db) (max_rowid (posts db)) = sqlite_sequence db.
Proof.
  intros [_ Hle] H0. apply Z.max_l. revert Hle.
  generalize (posts db). intros l. unfold max_rowid.
  induction 1 as [|p l Hp _ IH]; cbn [foldr]; [done|].
  cbv beta in Hp. lia.
Qed.

(** A create answered 201 takes the next rowid, and up to 2^53 answers the
    post that carries it; when the storage fails no read, no other request
    moves the sequence counter. *)
Lemma handle_sequence now io rq db :
  consistent db -> 0 <= sqlite_sequence db ->
  (status (handle now io rq db).2 = 201%nat ->
   sqlite_sequence (handle now io rq db).1 = sqlite_sequence db + 1
   /\ (sqlite_sequence db + 1 <= 2 ^ 53 ->
       exists p, shown (handle now io rq db).2 = [p]
                 /\ id p = sqlite_sequence db + 1))
  /\ (read_error io = None -> status (handle now io rq db).2 <> 201%nat ->
      sqlite_sequence (handle now io rq db).1 = sqlite_sequence db).
Proof.
  intros Hc H0. split.
  - intros Hst.
    destruct (handle_created now io rq db Hst)
      as (d & t & c & n & _ & _ & Hi & _ & Hr).
    pose proof Hi as [Hn Hdb]%insert_shape.
    rewrite (consistent_max_rowid db Hc H0) in Hn.
    rewrite Hdb at 1. cbn [sqlite_sequence]. split; [done|].
    intros Hle. rewrite Hr by lia.
    eexists. split; [reflexivity|]. done.
  - intros Hio Hst.
    destruct (handle_writes now io rq db)
      as [(-> & _)|[(d & t & c & n & _ & _ & _ & _ & Hr)
                   |[(k & d & t & c & p & _ & _ & _ & _ & -> & _)
                    |(k & p & _ & _ & _ & ->)]]]; [done| |done..].
    rewrite Hr, Hio in Hst. done.
Qed.

Lemma find_unique (k : number) (l : list post) p :
  NoDup (map id l) -> List.find (where_id k) l = Some p ->
  exists l1 l2,
    l = l1 ++ p :: l2
    /\ List.filter (fun r => negb (where_id k r)) l = l1 ++ l2
    /\ Forall (fun r => where_id k r = false) (l1 ++ l2).
Proof.
  induction l as [|a l IH]; cbn; [done|].
  rewrite NoDup_cons. intros [Ha Hl].
  destruct (where_id k a) eqn:E; cbn.
  - intros [= ->]. exists [], l. cbn.
    assert (Forall (fun r => where_id k r = false) l) as Hno.
    { apply Forall_forall. intros q Hq. apply not_true_iff_false.
      intros Hm. apply Ha.
      rewrite (equals_int_inj k (id p) (id q) E Hm).
      by apply list_elem_of_fmap_2. }
    split; [done|]. split; [|done].
    apply filter_all. eapply Forall_impl; [exact Hno|].
    intros q Hq. cbn in Hq. by rewrite Hq.
  - intros Hf. destruct (IH Hl Hf) as (l1 & l2 & -> & E2 & Hno).
    exists (a :: l1), l2. cbn. rewrite E2. split; [done|].
    split; [done|]. by constructor.
Qed.

Lemma filter_map_keep {A} (f : A -> bool) (g : A -> A) l :
  (forall a, f (g a) = f a) ->
  length (List.filter f (map g l)) = length (List.filter f l).
Proof.
  intros H. induction l as [|a l IH]; cbn; [done|].
  rewrite H. destruct (f a); cbn; by rewrite IH.
Qed.

Lemma update_update now1 now2 t1 c1 t2 c2 k db :
  update now2 t2 c2 k (update now1 t1 c1 k db).1 = update now2 t2 c2 k db.
Proof.
  unfold update. cbn [fst posts sqlite_sequence]. f_equal.
  - f_equal. rewrite <- list_fmap_compose. apply list_fmap_ext.
    intros i r _. cbn. unfold where_id.
    by destruct (equals_int k (id r)) eqn:E; cbn; rewrite ?E.
  - apply filter_map_keep. intros r. unfold where_id.
    by destruct (equals_int k (id r)) eqn:E.
Qed.

End Rowids.

(** X4. In a run on a table that satisfies SQLite's constraints, with a
    sequence counter that is not negative (the fresh database in
    particular) and a storage that fails no read, the counter ends at its
    initial value plus the number of creates answered 201, whatever
    reads, updates, deletes and refused requests come in between.  While
    the counter has not passed 2^53 the posts these creates answer carry
    the next rowids in order, without gaps: the k-th of them gets the
    counter's initial value plus k. *)
Theorem rowids_count_up reqs : forall db db' rs,
  consistent db -> 0 <= Server.sqlite_sequence db ->
  Forall (fun x => Server.read_error x.1.2 = None) reqs ->
  Server.run reqs db = (db', rs) ->
  Server.sqlite_sequence db'
  = Server.sqlite_sequence db
    + Z.of_nat (length (List.filter
                          (fun r => (Server.status r =? 201)%nat) rs))
  /\ (Server.sqlite_sequence db' <= 2 ^ 53 ->
      map id (created rs)
      = seqZ (Server.sqlite_sequence db + 1) (Z.of_nat (length (created rs)))
      /\ Server.sqlite_sequence db'
         = Server.sqlite_sequence db + Z.of_nat (length (created rs))).
Proof.
  induction reqs as [|[[now io] rq] rest IH]; intros db db' rs Hc H0 Hio Hrun.
  { injection Hrun as <- <-. cbn. split; [lia|]. intros _. split; [done|lia]. }
  rewrite run_cons in Hrun. injection Hrun as <- <-.
  apply Forall_cons in Hio as [Hio Hrest]. cbn [fst snd] in Hio.
  pose proof (handle_consistent now io rq db Hc) as Hc'.
  pose proof (run_sequence_le rest (Server.handle now io rq db).1) as Hle.
  destruct (handle_sequence now io rq db Hc H0) as [H201 Hother].
  unfold created. cbn [flat_map List.filter].
  fold (created (Server.run rest (Server.handle now io rq db).1).2).
  destruct (Nat.eqb_spec (Server.status (Server.handle now io rq db).2) 201)
    as [E|E].
  - destruct (H201 E) as (Hs & Hp).
    destruct (IH _ _ _ Hc' ltac:(lia) Hrest (surjective_pairing _))
      as [IH1 IH2].
    split; [cbn [length]; lia|]. intros Hex.
    destruct (Hp ltac:(lia)) as (p & -> & Hid).
    destruct (IH2 Hex) as [IH3 IH4].
    cbn [app map length]. rewrite IH3, Hs, Hid. split; [|lia].
    rewrite (seqZ_cons (Server.sqlite_sequence db + 1)); [|lia].
    f_equal. f_equal; lia.
  - specialize (Hother Hio E).
    destruct (IH _ _ _ Hc' ltac:(lia) Hrest (surjective_pairing _))
      as [IH1 IH2].
    split; [lia|]. intros Hex. destruct (IH2 Hex) as [IH3 IH4].
    cbn [app]. by rewrite IH3, IH4, Hother.
Qed.

Lemma rowids_count_up_witness :
  let d := PostData (JS.Str (JS.lit "t")) (JS.Str (JS.lit "c")) in
  let full := Server.Storage (Some (JS.lit "SQLITE_FULL")) None in
  let reqs := [(1, Server.healthy, Server.POST_posts (Some d));
               (2, Server.healthy, Server.DELETE_post (JS.of_int 1));
               (3, Server.healthy,
                Server.POST_posts (Some (PostData JS.Null JS.Null)));
               (3, full, Server.POST_posts (Some d));
               (3, Server.healthy, Server.POST_posts None);
               (4, Server.healthy, Server.POST_posts (Some d))] in
  Forall (fun x => Server.read_error x.1.2 = None) reqs
  /\ Server.sqlite_sequence (Server.run reqs Server.empty).1 = 2
  /\ map id (created (Server.run reqs Server.empty).2) = [1; 2].
Proof.
  cbn zeta.
  assert (Forall (fun x : Z * Server.storage * Server.request =>
                    Server.read_error x.1.2 = None)
            [(1, Server.healthy,
              Server.POST_posts
                (Some (PostData (JS.Str (JS.lit "t")) (JS.Str (JS.lit "c")))));
             (2, Server.healthy, Server.DELETE_post (JS.of_int 1));
             (3, Server.healthy,
              Server.POST_posts (Some (PostData JS.Null JS.Null)));
             (3, Server.Storage (Some (JS.lit "SQLITE_FULL")) None,
              Server.POST_posts
                (Some (PostData (JS.Str (JS.lit "t")) (JS.Str (JS.lit "c")))));
             (3, Server.healthy, Server.POST_posts None);
             (4, Server.healthy,
              Server.POST_posts
                (Some (PostData (JS.Str (JS.lit "t"))
                                (JS.Str (JS.lit "c")))))]) as Hio
    by (repeat constructor).
  split; [exact Hio|].
  destruct (rowids_count_up _ Server.empty _ _ empty_consistent
              ltac:(reflexivity) Hio (surjective_pairing _)) as [H1 H2].
  split; [exact H1|].
  apply H2. vm_compute. discriminate.
Defined.

(** X5. On a table that satisfies the key constraint, a delete under an
    identifier that selects a row answers 200 and removes that one row:
    the rows before it and after it stay, in their order, and the sequence
    counter stays.  The same delete repeated answers 404 and changes
    nothing. *)
Theorem delete_removes_one_row k db p :
  consistent db -> Server.select_by_id k db = Some p ->
  exists db' l1 l2,
    Server.delete_post k db = (db', Server.Response 200 Server.Success)
    /\ Server.posts db = l1 ++ p :: l2
    /\ Server.posts db' = l1 ++ l2
    /\ Server.sqlite_sequence db' = Server.sqlite_sequence db
    /\ Server.delete_post k db'
       = (db', Server.Response 404 (Server.Error (JS.lit "Not found"))).
Proof.
  intros [Hn _] Hs.
  destruct (find_unique k (Server.posts db) p Hn Hs)
    as (l1 & l2 & E1 & E2 & Hno).
  exists (Server.delete k db).1, l1, l2.
  split; [by eapply delete_post_found|]. split; [done|].
  unfold Server.delete at 1 2. cbn [fst Server.posts Server.sqlite_sequence].
  split; [done|]. split; [done|].
  apply delete_post_not_found.
  - apply find_some in Hs as [_ Hs]. by eapply equals_int_finite.
  - unfold Server.select_by_id, Server.delete. cbn [fst Server.posts].
    rewrite E2. by apply find_none_iff.
Qed.

Lemma delete_removes_one_row_witness :
  let a := Post 1 (JS.lit "a") (JS.lit "b") 10 10 in
  let b := Post 2 (JS.lit "c") (JS.lit "d") 11 11 in
  let c := Post 5 (JS.lit "e") (JS.lit "f") 12 12 in
  exists db' l1 l2,
    Server.delete_post (JS.of_int 2) (Server.Database [a; b; c] 5)
    = (db', Server.Response 200 Server.Success)
    /\ [a; b; c] = l1 ++ b :: l2
    /\ Server.posts db' = l1 ++ l2.
Proof.
  cbn zeta.
  destruct (delete_removes_one_row (JS.of_int 2)
              (Server.Database [Post 1 (JS.lit "a") (JS.lit "b") 10 10;
                                Post 2 (JS.lit "c") (JS.lit "d") 11 11;
                                Post 5 (JS.lit "e") (JS.lit "f") 12 12] 5)
              (Post 2 (JS.lit "c") (JS.lit "d") 11 11)
              ltac:(split; [apply (bool_decide_unpack _); by vm_compute
                           |repeat constructor; cbn; lia])
              eq_refl)
    as (db' & l1 & l2 & H1 & H2 & H3 & _).
  exists db', l1, l2. split; [exact H1|]. split; [exact H2|exact H3].
Defined.



(** X7. The later of two updates under the same identifier wins
    completely: when the second payload is valid, the database and the
    answer after both updates are those of the second update alone,
    whatever the first one was and did. *)
Theorem later_update_overwrites now1 now2 k d1 d2 t2 c2 db :
  valid d2 t2 c2 ->
  Server.put_post now2 k d2 (Server.put_post now1 k d1 db).1
  = Server.put_post now2 k d2 db.
Proof.
  intros Hv.
  destruct (handle_writes now1 Server.healthy (Server.PUT_post k (Some d1)) db)
    as [(E & _)|[(d & t & c & n & [=] & _)
                |[(k' & d & t & c & p & [= <- <-] & _ & Hs & _ & E & _)
                 |(k' & p & [=] & _)]]]; cbn [Server.handle] in *.
  - unfold Server.put_post. by rewrite E.
  - assert (JS.isFinite k = true) as Hk.
    { apply find_some in Hs as [_ Hs]. by eapply equals_int_finite. }
    rewrite !(put_post_valid now2 k d2 t2 c2 _ Hk Hv).
    unfold Server.put_post at 1. rewrite E.
    by rewrite update_update.
Qed.

Lemma later_update_overwrites_witness :
  let d1 := PostData (JS.Str (JS.lit "first")) (JS.Str (JS.lit "one")) in
  let d2 := PostData (JS.Str (JS.lit "second")) (JS.Str (JS.lit "two")) in
  let db := Server.Database [Post 1 (JS.lit "a") (JS.lit "b") 10 10] 1 in
  Server.put_post 30 (JS.of_int 1) d2
    (Server.put_post 20 (JS.of_int 1) d1 db).1
  = Server.put_post 30 (JS.of_int 1) d2 db.
Proof.
  cbn zeta.
  apply (later_update_overwrites 20 30 (JS.of_int 1) _ _
           (JS.lit "second") (JS.lit "two")).
  split; [reflexivity|]. split; vm_compute; discriminate.
Defined.

(** X8. While rowids are below 2^53, creating a post and then deleting
    it under the id the create answered gives the rows back as they were,
    but not the rowid: the delete answers 200, the table holds exactly the
    rows it held before the create, and the sequence counter stays at the
    id that was used, above its value before. *)
Theorem create_then_delete now d t c db :
  valid d t c -> rowid_exact db ->
  exists db1 p db2,
    Server.post_posts now d db
    = (db1, Server.Response 201 (Server.Row (Some p)))
    /\ Server.delete_post (JS.of_int (id p)) db1
       = (db2, Server.Response 200 Server.Success)
    /\ Server.posts db2 = Server.posts db
    /\ Server.sqlite_sequence db2 = id p
    /\ Server.sqlite_sequence db < id p.
Proof.
  intros Hv Hex.
  destruct (post_posts_exact now d t c db Hv Hex) as (_ & _ & Hs & Hp).
  eexists _, _, _. split; [exact Hp|]. cbn [id].
  rewrite (delete_post_found _ _ _ Hs).
  split; [reflexivity|].
  unfold Server.delete. cbn [fst Server.posts Server.sqlite_sequence].
  split; [|split; [done|lia]].
  rewrite List.filter_app. cbn [List.filter].
  unfold Server.where_id at 2. cbn [id]. rewrite equals_int_refl.
  cbn [negb]. rewrite app_nil_r. apply filter_all, Forall_forall.
  intros q Hq. apply negb_true_iff, not_true_iff_false.
  unfold Server.where_id. rewrite equals_int_of_int.
  apply max_rowid_ge in Hq. lia.
Qed.

Lemma create_then_delete_witness :
  let d := PostData (JS.Str (JS.lit "short lived")) (JS.Str (JS.lit "x")) in
  let db := Server.Database [Post 4 (JS.lit "a") (JS.lit "b") 10 10] 7 in
  exists db1 p db2,
    Server.post_posts 20 d db
    = (db1, Server.Response 201 (Server.Row (Some p)))
    /\ Server.delete_post (JS.of_int (id p)) db1
       = (db2, Server.Response 200 Server.Success)
    /\ Server.posts db2 = Server.posts db
    /\ Server.sqlite_sequence db2 = id p
    /\ Server.sqlite_sequence db < id p.
Proof.
  cbn zeta.
  apply (create_then_delete 20 _ (JS.lit "short lived") (JS.lit "x")).
  - split; [reflexivity|]. split; vm_compute; discriminate.
  - reflexivity.
Defined.

Section Immutable.
Import JS Server.

Lemma handle_keeps_created_at x ct now io rq db :
  (x <= sqlite_sequence db
   /\ Forall (fun q => id q = x -> created_at q = ct) (posts db)) ->
  x <= sqlite_sequence (handle now io rq db).1
  /\ Forall (fun q => id q = x -> created_at q = ct)
       (posts (handle now io rq db).1).
Proof.
  intros [Hx Hk].
  apply (handle_preserves
           (fun db => x <= sqlite_sequence db
                      /\ Forall (fun q => id q = x -> created_at q = ct)
                           (posts db)));
    [done|..].
  - intros t c db' n (Hn & ->)%insert_shape. cbn [posts sqlite_sequence].
    split; [lia|]. apply Forall_app. split; [done|].
    apply Forall_singleton. cbn. lia.
  - intros t c k. unfold update. cbn [fst posts sqlite_sequence].
    split; [done|]. apply Forall_fmap.
    eapply Forall_impl; [exact Hk|]. intros q Hq. unfold compose.
    by destruct (where_id k q).
  - intros k. unfold delete. cbn [fst posts sqlite_sequence].
    split; [done|]. apply Forall_forall.
    intros q [Hq _]%filter_elem_of. rewrite Forall_forall in Hk. auto.
Qed.

End Immutable.

(** X9. A post's creation time never changes: on a table that satisfies
    SQLite's constraints, after any run of requests every row that has the
    id of a row of the initial table has that row's created_at (an id is
    not handed out a second time, and updates leave the column alone). *)
Theorem created_at_never_changes reqs db db' rs p p' :
  consistent db -> Server.run reqs db = (db', rs) ->
  p ∈ Server.posts db -> p' ∈ Server.posts db' -> id p' = id p ->
  created_at p' = created_at p.
Proof.
  intros [Hn Hle] Hrun Hp Hp' E.
  destruct (run_invariant
              (fun db => id p <= Server.sqlite_sequence db
                         /\ Forall (fun q => id q = id p ->
                                      created_at q = created_at p)
                              (Server.posts db))
              (handle_keeps_created_at (id p) (created_at p)) reqs db)
    as [[_ H] _].
  - split.
    + rewrite Forall_forall in Hle. auto.
    + apply Forall_forall. intros q Hq Hid.
      by rewrite (key_determines _ q p Hn Hq Hp Hid).
  - rewrite Hrun in H. cbn [fst] in H. rewrite Forall_forall in H. auto.
Qed.

Lemma created_at_never_changes_witness :
  let d := PostData (JS.Str (JS.lit "new")) (JS.Str (JS.lit "text")) in
  let a := Post 1 (JS.lit "a") (JS.lit "b") 10 10 in
  let reqs := [(20, Server.healthy, Server.PUT_post (JS.of_int 1) (Some d));
               (21, Server.healthy, Server.POST_posts (Some d))] in
  Forall (fun p' => id p' = 1 -> created_at p' = 10)
    (Server.posts (Server.run reqs (Server.Database [a] 1)).1).
Proof.
  cbn zeta. apply Forall_forall. intros p' Hp' E.
  apply (created_at_never_changes
           [(20, Server.healthy,
             Server.PUT_post (JS.of_int 1)
               (Some (PostData (JS.Str (JS.lit "new"))
                               (JS.Str (JS.lit "text")))));
            (21, Server.healthy,
             Server.POST_posts
               (Some (PostData (JS.Str (JS.lit "new"))
                               (JS.Str (JS.lit "text")))))]
           (Server.Database [Post 1 (JS.lit "a") (JS.lit "b") 10 10] 1)
           _ _ (Post 1 (JS.lit "a") (JS.lit "b") 10 10) p'
           ltac:(split; [apply (bool_decide_unpack _); by vm_compute
                        |repeat constructor; cbn; lia])
           (surjective_pairing _)
           ltac:(by left) Hp' E).
Defined.

(** ** Further properties of the client cache *)

Ltac in_list :=
  repeat first [apply list_elem_of_here | apply list_elem_of_further].

Section Lookup.
Import JS Client.

Lemma find_findIndex f (ps : list post) q :
  List.find f ps = Some q -> exists i, findIndex f ps = Some i.
Proof.
  induction ps as [|a ps IH]; cbn; [done|].
  destruct (f a); [by eexists|]. intros H.
  destruct (IH H) as [i ->]. by eexists.
Qed.

Lemma find_insert_first f (ps : list post) i p :
  findIndex f ps = Some i -> f p = true ->
  List.find f (<[i := p]> ps) = Some p.
Proof.
  revert i. induction ps as [|a ps IH]; intros i; cbn; [done|].
  destruct (f a) eqn:E.
  - intros [= <-] Hp. cbn. by rewrite Hp.
  - destruct (findIndex f ps) as [k|]; [|done]. intros [= <-] Hp.
    cbn. rewrite E. by apply IH.
Qed.

Lemma find_filter_none f (ps : list post) :
  List.find f (List.filter (fun q => negb (f q)) ps) = None.
Proof.
  apply find_none_iff, Forall_forall.
  intros q [_ Hq]%filter_elem_of. by apply negb_true_iff.
Qed.

End Lookup.

(** X10. An operation of the cache that throws leaves the cached sequence
    as it was and has notified onError with the message it throws: this
    holds for the load and for the three mutations, whatever made them
    fail (validation, the identifier, the network, the status, the
    body). *)
Theorem failed_operations_keep_the_cache m x :
  (forall f, (Client.loadPosts f m).2 = JS.Throw x ->
     cached (Client.loadPosts f m) = Client.posts m
     /\ Client.onError x ∈ events (Client.loadPosts f m))
  /\ (forall d f, (Client.createPost d f m).2 = JS.Throw x ->
        cached (Client.createPost d f m) = Client.posts m
        /\ Client.onError x ∈ events (Client.createPost d f m))
  /\ (forall n d f, (Client.updatePost n d f m).2 = JS.Throw x ->
        cached (Client.updatePost n d f m) = Client.posts m
        /\ Client.onError x ∈ events (Client.updatePost n d f m))
  /\ (forall n f, (Client.deletePost n f m).2 = JS.Throw x ->
        cached (Client.deletePost n f m) = Client.posts m
        /\ Client.onError x ∈ events (Client.deletePost n f m)).
Proof.
  split; [|split; [|split]].
  - intros f. unfold_model. cbn. by_cases; intros; simplify_eq;
      (split; [done|in_list]).
  - intros d f. unfold_model. cbn. by_cases; intros; simplify_eq;
      (split; [done|in_list]).
  - intros n d f. unfold_model. cbn. by_cases; intros; simplify_eq;
      (split; [done|in_list]).
  - intros n f. unfold_model. cbn. by_cases; intros; simplify_eq;
      (split; [done|in_list]).
Qed.

Lemma failed_operations_keep_the_cache_witness :
  let a := Post 1 (JS.lit "one") (JS.lit "first post") 10 10 in
  cached (Client.deletePost (JS.of_int 1)
            (Client.Resolves
               (Client.Response 404 (Some (JS.lit "Not found"))
                  (JS.Return tt)))
            (Client.Model [a] false))
  = [a].
Proof.
  cbn zeta.
  destruct (failed_operations_keep_the_cache
              (Client.Model [Post 1 (JS.lit "one") (JS.lit "first post") 10 10]
                            false)
              (JS.lit "Not found")) as (_ & _ & _ & H).
  exact (proj1 (H (JS.of_int 1)
                  (Client.Resolves
                     (Client.Response 404 (Some (JS.lit "Not found"))
                        (JS.Return tt)))
                  eq_refl)).
Defined.

(** X11. The load returns exactly when the request resolves with a success
    status and a body that parses, and then the cache is the array of the
    body, whatever it held before, onPostsLoaded carries that array, and
    the array is what is returned. *)
Theorem load_replaces_the_cache f m m' ev ps :
  Client.loadPosts f m = (m', ev, JS.Return ps) <->
  (exists r, f = Client.Resolves r /\ Client.ok r = true
             /\ Client.json r = JS.Return ps)
  /\ m' = Client.Model ps false
  /\ ev = [Client.onLoadingChange true; Client.onLoadingStart;
           Client.onPostsLoaded ps;
           Client.onLoadingChange false; Client.onLoadingEnd].
Proof.
  split.
  - unfold_model. destruct f as [y|r]; cbn; [done|].
    destruct (Client.ok r) eqn:Ho; cbn; [|done].
    destruct (Client.json r) as [qs|y] eqn:Hj; cbn; [|done].
    intros [= <- <- <-]. split; [by exists r|done].
  - intros ((r & -> & Ho & Hj) & -> & ->). unfold_model.
    by rewrite Ho, Hj.
Qed.

(** X12. The cache finds what the mutations wrote: after a create that
    returned, the lookup under the id of the returned post finds that
    post; after an update that returned a post carrying the identifier,
    for an identifier the cache had, the lookup finds the returned post;
    after an update for an identifier the cache did not have, the lookup
    still finds nothing; after a delete that returned, the lookup under
    the identifier finds nothing. *)
Theorem cache_lookup_after_mutation :
  (forall d f m m' ev p,
     Client.createPost d f m = (m', ev, JS.Return p) ->
     Client.getPostById (JS.of_int (id p)) m' = Some p)
  /\ (forall n d f m m' ev p q,
        Client.updatePost n d f m = (m', ev, JS.Return p) ->
        Client.getPostById n m = Some q -> JS.equals_int n (id p) = true ->
        Client.getPostById n m' = Some p)
  /\ (forall n d f m m' ev p,
        Client.updatePost n d f m = (m', ev, JS.Return p) ->
        Client.getPostById n m = None ->
        Client.getPostById n m' = None)
  /\ (forall n f m m' ev b,
        Client.deletePost n f m = (m', ev, JS.Return b) ->
        Client.getPostById n m' = None).
Proof.
  split; [|split; [|split]].
  - intros d f m m' ev p E.
    destruct (createPost_returns _ _ _ _ _ _ E) as (r & -> & Hv & Ho & Hj).
    rewrite (createPost_ok d r p m Hv Ho Hj) in E. simplify_eq.
    unfold Client.getPostById. cbn [Client.posts List.find].
    unfold Client.has_id at 1. by rewrite equals_int_refl.
  - intros n d f m m' ev p q E Hq Hp.
    destruct (updatePost_returns _ _ _ _ _ _ _ E)
      as (r & -> & Hn & Hv & Ho & Hj).
    rewrite (updatePost_ok n d r p m Hn Hv Ho Hj) in E. simplify_eq.
    unfold Client.getPostById in *. cbn [Client.posts].
    destruct (find_findIndex _ _ _ Hq) as [i Hi]. rewrite Hi.
    by apply find_insert_first.
  - intros n d f m m' ev p E Hq.
    destruct (updatePost_returns _ _ _ _ _ _ _ E)
      as (r & -> & Hn & Hv & Ho & Hj).
    rewrite (updatePost_ok n d r p m Hn Hv Ho Hj) in E. simplify_eq.
    unfold Client.getPostById in *. cbn [Client.posts].
    pose proof (proj1 (find_none_iff _ _) Hq) as Hi.
    apply (proj2 (findIndex_None _ _)) in Hi. by rewrite Hi.
  - intros n f m m' ev b E.
    destruct (deletePost_returns _ _ _ _ _ _ E) as (r & -> & Hn & Ho).
    rewrite (deletePost_ok n r m Hn Ho) in E. simplify_eq.
    unfold Client.getPostById. cbn [Client.posts].
    apply find_filter_none.
Qed.

Lemma cache_lookup_after_mutation_witness :
  let p := Post 3 (JS.lit "Hello") (JS.lit "This is a test post") 10 10 in
  let d := PostData (JS.Str (JS.lit "Hello"))
                    (JS.Str (JS.lit "This is a test post")) in
  Client.getPostById (JS.of_int 3)
    (Client.createPost d
       (Client.Resolves (Client.Response 201 None (JS.Return p)))
       Client.constructor).1.1
  = Some p.
Proof.
  cbn zeta.
  destruct cache_lookup_after_mutation as (H & _).
  exact (H (PostData (JS.Str (JS.lit "Hello"))
                     (JS.Str (JS.lit "This is a test post")))
           (Client.Resolves
              (Client.Response 201 None
                 (JS.Return (Post 3 (JS.lit "Hello")
                               (JS.lit "This is a test post") 10 10))))
           Client.constructor _ _ _ eq_refl).
Defined.

(** X13. What the client's validation lets through, the store accepts: a
    payload for which validatePostData reports no error has string fields
    whose trimmed lengths are at least 3 and 10, so it is valid for the
    store, and neither the create nor an update under a finite identifier
    answers it with 400. *)
Theorem validated_payloads_are_accepted d :
  Client.validatePostData d = JS.Return [] ->
  exists t c,
    valid d t c
    /\ (3 <= length (JS.trim t))%nat /\ (10 <= length (JS.trim c))%nat
    /\ forall now db n,
         Server.status (Server.post_posts now d db).2 <> 400%nat
         /\ (JS.isFinite n = true ->
             Server.status (Server.put_post now n d db).2 <> 400%nat).
Proof.
  intros H.
  assert (forall what req short least v,
            Client.validate_field what req short least v = JS.Return [] ->
            exists s, v = JS.Str s) as Hstr.
  { intros what req short least [| |s|[]]; try done. by eexists. }
  assert (exists t c, d = PostData (JS.Str t) (JS.Str c)) as (t & c & ->).
  { destruct d as [vt vc]. unfold Client.validatePostData in H.
    cbn [data_title data_content] in H.
    destruct (Client.validate_field "title" _ _ _ vt) as [e1|] eqn:E1;
      [|done].
    destruct (Client.validate_field "content" _ _ _ vc) as [e2|] eqn:E2;
      [|done].
    injection H as H. apply app_eq_nil in H as [-> ->].
    destruct (Hstr _ _ _ _ _ E1) as [t ->].
    destruct (Hstr _ _ _ _ _ E2) as [c ->]. by exists t, c. }
  destruct (validatePostData_strings t c) as (errs & E & Hl).
  rewrite H in E. injection E as <-. destruct (proj1 Hl eq_refl) as [Ht Hc].
  assert (valid (PostData (JS.Str t) (JS.Str c)) t c) as Hv.
  { split; [done|].
    split; intros E; rewrite E in *; cbn in *; lia. }
  exists t, c. split; [done|]. split; [done|]. split; [done|].
  intros now db n. split.
  - rewrite (post_posts_valid now _ t c db Hv).
    by destruct (Server.insert now (JS.trim t) (JS.trim c) db) as [|[]].
  - intros Hn. rewrite (put_post_valid now n _ t c db Hn Hv).
    unfold Server.update. by case_match.
Qed.

Lemma validated_payloads_are_accepted_witness :
  let d := PostData (JS.Str (JS.lit "  Hello  "))
                    (JS.Str (JS.lit "This is a test post")) in
  exists t c,
    valid d t c
    /\ (3 <= length (JS.trim t))%nat /\ (10 <= length (JS.trim c))%nat.
Proof.
  cbn zeta.
  destruct (validated_payloads_are_accepted
              (PostData (JS.Str (JS.lit "  Hello  "))
                        (JS.Str (JS.lit "This is a test post")))
              eq_refl) as (t & c & H1 & H2 & H3 & _).
  exists t, c. split; [exact H1|]. split; [exact H2|exact H3].
Defined.

(** ** The view and the controller *)

Section Forms.
Import JS View.

Lemma too_short_false least s :
  (0 < least)%nat -> too_short least s = false <-> (least <= length s)%nat.
Proof.
  intros Hl. destruct s as [|a s].
  - cbn. split; [done|lia].
  - unfold too_short. apply Nat.ltb_ge.
Qed.

Lemma validateForm_nil t c :
  validateForm t c = [] <->
  (3 <= length t)%nat /\ (10 <= length c)%nat.
Proof.
  unfold validateForm.
  rewrite <- (too_short_false 3 t), <- (too_short_false 10 c) by lia.
  destruct (too_short 3 t), (too_short 10 c); cbn; intuition congruence.
Qed.

(** The two checks agree on the data the view builds from a form. *)
Lemma form_checks_agree title content :
  validateForm (form_field title) (form_field content) = [] <->
  Client.validatePostData
    (PostData (Str (form_field title)) (Str (form_field content)))
  = Return [].
Proof.
  rewrite validateForm_nil.
  destruct (validatePostData_strings (form_field title) (form_field content))
    as (errs & -> & H).
  unfold form_field in *. rewrite !trim_idem in H. rewrite <- H.
  split; [by intros ->|by intros [= ->]].
Qed.

Lemma length_zero_ltb {A} (l : list A) :
  (0 <? length l)%nat = false <-> l = [].
Proof. destruct l; cbn; split; done. Qed.

End Forms.

(** X14. The view's form check and the model's validation agree on what
    the submit handlers build from a form (the trimmed entries, an absent
    entry counting as empty): validateForm finds no error exactly when
    validatePostData finds none.  So whatever the form holds, the data
    that handleSubmit and handleEditSubmit notify (onPostCreate, or
    onPostUpdate when an edit is under way) pass the model's validation,
    and when they display errors instead there is at least one. *)
Theorem submitted_forms_pass_validation :
  (forall title content,
     View.validateForm (View.form_field title) (View.form_field content) = []
     <-> Client.validatePostData
           (PostData (JS.Str (View.form_field title))
                     (JS.Str (View.form_field content)))
         = JS.Return [])
  /\ (forall cur title content e,
        View.handleSubmit cur title content = View.Notified e ->
        exists d,
          Client.validatePostData d = JS.Return []
          /\ match View.editing cur with
             | Some n => e = View.onPostUpdate n d
             | None => e = View.onPostCreate d
             end)
  /\ (forall n title content e,
        View.handleEditSubmit n title content = View.Notified e ->
        exists d, Client.validatePostData d = JS.Return []
                  /\ e = View.onPostUpdate n d)
  /\ (forall cur n title content errors,
        View.handleSubmit cur title content = View.Displayed errors
        \/ View.handleEditSubmit n title content = View.Displayed errors ->
        errors <> []).
Proof.
  split; [exact form_checks_agree|]. split; [|split].
  - intros cur title content e. unfold View.handleSubmit. cbn zeta.
    destruct (0 <? length _)%nat eqn:E; [done|].
    apply length_zero_ltb, form_checks_agree in E.
    destruct (View.editing cur); intros [= <-]; by eexists.
  - intros n title content e. unfold View.handleEditSubmit. cbn zeta.
    destruct (0 <? length _)%nat eqn:E; [done|].
    apply length_zero_ltb, form_checks_agree in E.
    intros [= <-]. by eexists.
  - intros cur n title content errors.
    unfold View.handleSubmit, View.handleEditSubmit. cbn zeta.
    destruct (0 <? length _)%nat eqn:E.
    + intros [[= <-]|[= <-]] E'; by rewrite E' in E.
    + destruct (View.editing cur); by intros [|].
Qed.

Lemma submitted_forms_pass_validation_witness :
  exists d,
    Client.validatePostData d = JS.Return []
    /\ View.onPostCreate
         (PostData (JS.Str (JS.lit "Hello"))
                   (JS.Str (JS.lit "This is a test post")))
       = View.onPostCreate d.
Proof.
  destruct submitted_forms_pass_validation as (_ & H & _).
  exact (H None (Some (JS.lit "  Hello "))
           (Some (JS.lit "This is a test post  ")) _ eq_refl).
Defined.

Section Escaping.
Import JS View.

Lemma escape_unit_cases c :
  (c = 38%N /\ escape_unit c = lit "&amp;")
  \/ (c = 60%N /\ escape_unit c = lit "&lt;")
  \/ (c = 62%N /\ escape_unit c = lit "&gt;")
  \/ (c = 160%N /\ escape_unit c = lit "&nbsp;")
  \/ ((c <> 38%N /\ c <> 60%N /\ c <> 62%N /\ c <> 160%N)
      /\ escape_unit c = [c]).
Proof.
  unfold escape_unit.
  destruct (N.eqb_spec c 38); [by left|].
  destruct (N.eqb_spec c 60); [by right; left|].
  destruct (N.eqb_spec c 62); [by right; right; left|].
  destruct (N.eqb_spec c 160); [by right; right; right; left|].
  by right; right; right; right.
Qed.

Lemma escapeHtml_cons c s :
  escapeHtml (c :: s) = escape_unit c ++ escapeHtml s.
Proof. done. Qed.

Lemma escapeHtml_no_angle s :
  Forall (fun c => c <> 60%N /\ c <> 62%N) (escapeHtml s).
Proof.
  induction s as [|c s IH]; [constructor|]. rewrite escapeHtml_cons.
  apply Forall_app. split; [|done].
  destruct (escape_unit_cases c)
    as [[_ ->]|[[_ ->]|[[_ ->]|[[_ ->]|[(_ & ? & ? & _) ->]]]]];
    repeat constructor; done.
Qed.

Lemma escapeHtml_plain s :
  Forall (fun c => c <> 38%N /\ c <> 60%N /\ c <> 62%N /\ c <> 160%N) s ->
  escapeHtml s = s.
Proof.
  induction 1 as [|c s Hc _ IH]; [done|]. rewrite escapeHtml_cons, IH.
  destruct (escape_unit_cases c)
    as [[-> _]|[[-> _]|[[-> _]|[[-> _]|[_ ->]]]]];
    try (by destruct Hc as (? & ? & ? & ?)).
Qed.

Lemma escapeHtml_inj s1 : forall s2,
  escapeHtml s1 = escapeHtml s2 -> s1 = s2.
Proof.
  induction s1 as [|c1 s1 IH]; intros [|c2 s2].
  - done.
  - rewrite escapeHtml_cons.
    destruct (escape_unit_cases c2)
      as [[_ ->]|[[_ ->]|[[_ ->]|[[_ ->]|[_ ->]]]]]; done.
  - rewrite escapeHtml_cons.
    destruct (escape_unit_cases c1)
      as [[_ ->]|[[_ ->]|[[_ ->]|[[_ ->]|[_ ->]]]]]; done.
  - rewrite !escapeHtml_cons.
    destruct (escape_unit_cases c1)
      as [[-> ->]|[[-> ->]|[[-> ->]|[[-> ->]|[(? & ? & ? & ?) ->]]]]];
    destruct (escape_unit_cases c2)
      as [[-> ->]|[[-> ->]|[[-> ->]|[[-> ->]|[(? & ? & ? & ?) ->]]]]];
    cbn; intros E; simplify_eq; f_equal; by apply IH.
Qed.

Lemma replace_newlines_tags l :
  Forall (fun c => c <> 60%N /\ c <> 62%N) l ->
  tags_are_br (replace_newlines l) = true
  /\ Forall (fun c => c <> 10%N) (replace_newlines l).
Proof.
  induction 1 as [|c l [H1 H2] _ [IH1 IH2]]; [by split; [|constructor]|].
  unfold replace_newlines in *. cbn [flat_map].
  destruct (N.eqb_spec c 10) as [->|Hc].
  - split; [exact IH1|]. repeat (constructor; [done|]). exact IH2.
  - cbn. apply N.eqb_neq in H1, H2. rewrite H1, H2.
    split; [done|by constructor].
Qed.

End Escaping.

(** X15. The escaping of the view writes the ampersand, the two angle
    brackets and the no-break space as entities and every other code unit
    as it is: the escaped text holds no angle bracket, a text without
    these four code units is unchanged, and different texts have different
    escapings.  The content of a post is rendered with no line feed and
    with no markup but the line breaks that take their place. *)
Theorem escaped_text_carries_no_markup :
  (forall s, Forall (fun c => c <> 60%N /\ c <> 62%N) (View.escapeHtml s))
  /\ (forall s,
        Forall (fun c => c <> 38%N /\ c <> 60%N /\ c <> 62%N /\ c <> 160%N) s ->
        View.escapeHtml s = s)
  /\ (forall s1 s2, View.escapeHtml s1 = View.escapeHtml s2 -> s1 = s2)
  /\ (forall s, tags_are_br (View.renderPostContent s) = true
                /\ Forall (fun c => c <> 10%N) (View.renderPostContent s)).
Proof.
  split; [exact escapeHtml_no_angle|]. split; [exact escapeHtml_plain|].
  split; [exact escapeHtml_inj|].
  intros s. apply replace_newlines_tags, escapeHtml_no_angle.
Qed.

Lemma escaped_text_carries_no_markup_witness :
  View.escapeHtml (JS.lit "plain text, 'quoted'")
  = JS.lit "plain text, 'quoted'".
Proof.
  destruct escaped_text_carries_no_markup as (_ & H & _).
  apply H. repeat constructor; done.
Defined.

(** X16. The edit handler of the controller looks only at the cache.  It
    shows the edit form exactly for the first cached post that carries the
    identifier, which it hands over; without one it shows "Post not
    found.", and without an identifier "Missing post id for edit".  So
    right after a create that returned a post, the edit of that post's id
    opens the form on it, and right after a delete that returned, the edit
    of the deleted identifier reports that the post is not found. *)
Theorem edit_reads_the_cache :
  (forall n m p,
     Controller.handlePostEdit (Some n) m = Controller.showEditForm p ->
     p ∈ Client.posts m /\ JS.equals_int n (id p) = true)
  /\ (forall n m,
        Forall (fun q => JS.equals_int n (id q) = false) (Client.posts m) <->
        Controller.handlePostEdit (Some n) m
        = Controller.showError (JS.lit "Post not found."))
  /\ (forall m, Controller.handlePostEdit None m
                = Controller.showError (JS.lit "Missing post id for edit"))
  /\ (forall d f m m' ev p,
        Client.createPost d f m = (m', ev, JS.Return p) ->
        Controller.handlePostEdit (Some (JS.of_int (id p))) m'
        = Controller.showEditForm p)
  /\ (forall n f m m' ev b,
        Client.deletePost n f m = (m', ev, JS.Return b) ->
        Controller.handlePostEdit (Some n) m'
        = Controller.showError (JS.lit "Post not found.")).
Proof.
  split; [|split; [|split; [|split]]].
  - intros n m p. unfold Controller.handlePostEdit, Client.getPostById.
    destruct (List.find _ _) as [q|] eqn:E; [|done]. intros [= ->].
    apply find_some in E as [H1 H2]. by apply list_elem_of_In in H1.
  - intros n m. unfold Controller.handlePostEdit, Client.getPostById.
    rewrite <- (find_none_iff (Client.has_id n)).
    by destruct (List.find _ _).
  - done.
  - intros d f m m' ev p E.
    destruct (createPost_returns _ _ _ _ _ _ E) as (r & -> & Hv & Ho & Hj).
    rewrite (createPost_ok d r p m Hv Ho Hj) in E. simplify_eq.
    unfold Controller.handlePostEdit, Client.getPostById.
    cbn [Client.posts List.find]. unfold Client.has_id at 1.
    by rewrite equals_int_refl.
  - intros n f m m' ev b E.
    destruct (deletePost_returns _ _ _ _ _ _ E) as (r & -> & Hn & Ho).
    rewrite (deletePost_ok n r m Hn Ho) in E. simplify_eq.
    unfold Controller.handlePostEdit, Client.getPostById.
    cbn [Client.posts]. by rewrite find_filter_none.
Qed.

Lemma edit_reads_the_cache_witness :
  let a := Post 1 (JS.lit "one") (JS.lit "first post") 10 10 in
  let b := Post 2 (JS.lit "two") (JS.lit "second post") 11 11 in
  Controller.handlePostEdit (Some (JS.of_int 2))
    (Client.deletePost (JS.of_int 2)
       (Client.Resolves (Client.Response 200 None (JS.Return tt)))
       (Client.Model [b; a] false)).1.1
  = Controller.showError (JS.lit "Post not found.").
Proof.
  cbn zeta.
  destruct edit_reads_the_cache as (_ & _ & _ & _ & H).
  exact (H (JS.of_int 2)
           (Client.Resolves (Client.Response 200 None (JS.Return tt)))
           (Client.Model [Post 2 (JS.lit "two") (JS.lit "second post") 11 11;
                          Post 1 (JS.lit "one") (JS.lit "first post") 10 10]
                         false)
           _ _ _ eq_refl).
Defined.

(** ** The observer registry *)

Section Registry.
Import Observers.

Lemma notifyObservers_app event l1 l2 :
  notifyObservers event (l1 ++ l2)
  = notifyObservers event l1 ++ notifyObservers event l2.
Proof.
  unfold notifyObservers. by rewrite List.filter_app, map_app.
Qed.

Lemma removeObserver_app o l1 l2 :
  removeObserver o (l1 ++ l2) = removeObserver o l1 ++ removeObserver o l2.
Proof. apply List.filter_app. Qed.

Lemma removeObserver_self o : removeObserver o [o] = [].
Proof. unfold removeObserver. cbn. by rewrite Nat.eqb_refl. Qed.

Lemma notified_after_remove event o l :
  notifyObservers event (removeObserver o l)
  = List.filter (fun r => negb (r =? ref o)%nat) (notifyObservers event l).
Proof.
  unfold notifyObservers, removeObserver.
  induction l as [|a l IH]; cbn; [done|].
  destruct (ref a =? ref o)%nat eqn:E, (implements event a) eqn:I;
    cbn; rewrite ?E, ?I; cbn; by rewrite ?IH.
Qed.

End Registry.

(** X17. The observer registry.  An observer is notified once for each
    time it was added, after the observers added before it, and only of
    the events for which it has a function.  Removing an observer removes
    every registration of it and no other: afterwards it is notified of
    nothing, the others are notified as before, and removing an observer
    right after adding it to a registry that did not hold it gives the
    registry back. *)
Theorem observers_are_notified_in_order o observers event :
  Observers.notifyObservers event (Observers.addObserver o observers)
  = Observers.notifyObservers event observers
    ++ (if Observers.implements event o then [Observers.ref o] else [])
  /\ Observers.notifyObservers event (Observers.removeObserver o observers)
     = List.filter (fun r => negb (r =? Observers.ref o)%nat)
         (Observers.notifyObservers event observers)
  /\ (Observers.ref o
      ∉ Observers.notifyObservers event
          (Observers.removeObserver o
             (Observers.addObserver o (Observers.addObserver o observers))))
  /\ (Forall (fun q => Observers.ref q <> Observers.ref o) observers ->
      Observers.removeObserver o (Observers.addObserver o observers)
      = observers).
Proof.
  split; [|split; [|split]].
  - unfold Observers.addObserver. rewrite notifyObservers_app.
    f_equal. unfold Observers.notifyObservers. cbn.
    by destruct (Observers.implements event o).
  - apply notified_after_remove.
  - rewrite notified_after_remove, list_elem_of_In, filter_In.
    intros [_ H]. by rewrite Nat.eqb_refl in H.
  - intros H. unfold Observers.addObserver.
    rewrite removeObserver_app, removeObserver_self, app_nil_r.
    apply filter_all. eapply Forall_impl; [exact H|].
    intros q Hq. cbn in Hq. by apply negb_true_iff, Nat.eqb_neq.
Qed.

Lemma observers_are_notified_in_order_witness :
  let controller := Observers.Observer 1 ["onPostCreated"; "onError"]%string in
  let logger := Observers.Observer 2 ["onLoadingChange"]%string in
  Observers.removeObserver logger
    (Observers.addObserver logger [controller])
  = [controller].
Proof.
  cbn zeta.
  destruct (observers_are_notified_in_order
              (Observers.Observer 2 ["onLoadingChange"]%string)
              [Observers.Observer 1 ["onPostCreated"; "onError"]%string]
              "onError"%string) as (_ & _ & _ & H).
  apply H. repeat constructor. cbn. lia.
Defined.

(** X18. Trimming strips white space from the two ends and nothing else:
    a string is some white space, then its trimmed form, then some white
    space, and the trimmed form neither starts nor ends with a white-space
    code unit.  A string that neither starts nor ends with one is its own
    trimmed form. *)
Theorem trim_strips_the_ends s :
  (exists l r,
     s = l ++ JS.trim s ++ r
     /\ Forall (fun c => JS.is_white_space c = true) l
     /\ Forall (fun c => JS.is_white_space c = true) r)
  /\ (forall c t, JS.trim s = c :: t -> JS.is_white_space c = false)
  /\ (forall t c, JS.trim s = t ++ [c] -> JS.is_white_space c = false)
  /\ (forall c t c',
        s = c :: t -> last s = Some c' ->
        JS.is_white_space c = false -> JS.is_white_space c' = false ->
        JS.trim s = s).
Proof.
  split; [|split; [|split]].
  - destruct (trimStart_split s) as (l & E1 & H1).
    destruct (trimEnd_split (JS.trimStart s)) as (r & E2 & H2).
    exists l, r. unfold JS.trim. by rewrite <- E2.
  - apply trim_no_leading.
  - unfold JS.trim. apply trimEnd_last.
  - intros c t c' -> Hl Hc Hc'. unfold JS.trim.
    rewrite (trimStart_head c t Hc).
    destruct (trimEnd_split (c :: t)) as (r & E & Hr).
    destruct r as [|x r _] using rev_ind; [by rewrite app_nil_r in E|].
    rewrite E, app_assoc, last_snoc in Hl. injection Hl as <-.
    rewrite Forall_app, Forall_singleton in Hr. destruct Hr as [_ Hr].
    congruence.
Qed.

Lemma trim_strips_the_ends_witness :
  JS.trim (JS.lit "a b") = JS.lit "a b".
Proof.
  destruct (trim_strips_the_ends (JS.lit "a b")) as (_ & _ & _ & H).
  apply (H 97%N (JS.lit " b") 98%N); reflexivity.
Defined.

Section Utf8.
Import JS Server.

Lemma isWellFormed_plain c s :
  is_lead c = false ->
  isWellFormed (c :: s) = negb (is_trail c) && isWellFormed s.
Proof. intros H. cbn [isWellFormed]. by rewrite H. Qed.

Lemma toWellFormed_well_formed s : isWellFormed (toWellFormed s) = true.
Proof.
  induction s as [|c|c d r IH1 IH2] using by_pairs; [done|..].
  - cbn. destruct (is_lead c) eqn:L; [done|].
    destruct (is_trail c) eqn:T; [done|]. cbn. by rewrite L, T.
  - rewrite toWellFormed_pair. destruct (is_lead c) eqn:L.
    + destruct (is_trail d) eqn:T.
      * rewrite isWellFormed_pair, L, T. done.
      * by rewrite isWellFormed_plain, IH2.
    + destruct (is_trail c) eqn:T.
      * by rewrite isWellFormed_plain, IH2.
      * by rewrite (isWellFormed_plain c), T, IH2.
Qed.

Lemma toWellFormed_length s : length (toWellFormed s) = length s.
Proof.
  rewrite <- (length_map is_white_space (toWellFormed s)).
  by rewrite toWellFormed_white_space, length_map.
Qed.

Lemma handle_well_formed now io rq db :
  Forall well_formed (posts db) ->
  Forall well_formed (posts (handle now io rq db).1).
Proof.
  intros H.
  assert (forall n t c ct ut, well_formed (Post n (TEXT t) (TEXT c) ct ut))
    as Hw.
  { intros. split; apply toWellFormed_well_formed. }
  apply (handle_preserves (fun db => Forall well_formed (posts db)));
    [done|..].
  - intros t c db' n (_ & ->)%insert_shape. cbn [posts].
    apply Forall_app. split; [done|]. by apply Forall_singleton.
  - intros t c n. unfold update. cbn [fst posts]. apply Forall_fmap.
    eapply Forall_impl; [exact H|]. intros q Hq. unfold compose.
    by destruct (where_id n q).
  - intros n. unfold delete. cbn [fst posts]. apply Forall_forall.
    intros q [Hq _]%filter_elem_of. rewrite Forall_forall in H. auto.
Qed.

End Utf8.

(** X20.  The text the store holds is well-formed UTF-16.  Going through
    UTF-8 gives a well-formed string of the same length, and changes a
    string exactly when it is not well-formed.  So when every row has a
    well-formed title and content (the empty table in particular), so has
    every row after any run of requests, and so has every post any
    response of the run shows, whatever strings the requests carry. *)
Theorem stored_text_is_well_formed :
  (forall s, JS.isWellFormed (JS.toWellFormed s) = true)
  /\ (forall s, length (JS.toWellFormed s) = length s)
  /\ (forall s, JS.toWellFormed s = s <-> JS.isWellFormed s = true)
  /\ (forall reqs db db' rs,
        Forall well_formed (Server.posts db) ->
        Server.run reqs db = (db', rs) ->
        Forall well_formed (Server.posts db')
        /\ forall r p, r ∈ rs -> p ∈ shown r -> well_formed p).
Proof.
  split; [exact toWellFormed_well_formed|].
  split; [exact toWellFormed_length|]. split.
  - intros s. split; [|apply toWellFormed_isWellFormed].
    intros <-. apply toWellFormed_well_formed.
  - intros reqs db db' rs H Hrun.
    destruct (run_invariant (fun db => Forall well_formed (Server.posts db))
                handle_well_formed reqs db H) as [H1 H2].
    rewrite Hrun in H1, H2. cbn [fst snd] in *. split; [done|].
    intros r p Hr Hp. destruct (H2 r Hr) as (now & io & rq & db0 & H0 & ->).
    apply handle_shown in Hp.
    pose proof (handle_well_formed now io rq db0 H0) as H3.
    rewrite Forall_forall in H3. auto.
Qed.

Lemma stored_text_is_well_formed_witness :
  let lone := PostData (JS.Str [55357; 97]%N) (JS.Str [98; 56832]%N) in
  let pair := PostData (JS.Str [55357; 56832]%N) (JS.Str (JS.lit "x")) in
  let reqs := [(1, Server.healthy, Server.POST_posts (Some lone));
               (2, Server.healthy, Server.POST_posts (Some pair));
               (3, Server.healthy, Server.PUT_post (JS.of_int 2) (Some lone))] in
  Forall well_formed (Server.posts (Server.run reqs Server.empty).1)
  /\ map title (Server.posts (Server.run reqs Server.empty).1)
     = [[65533; 97]%N; [65533; 97]%N].
Proof.
  cbn zeta. split; [|reflexivity].
  destruct stored_text_is_well_formed as (_ & _ & _ & H).
  exact (proj1 (H _ Server.empty _ _ (Forall_nil_2 _) (surjective_pairing _))).
Defined.
